(** * Jobster API: the jobs controller (controllers/jobs.js)

    A shallow embedding of the six request handlers of the jobs controller
    (getAllJobs, getJob, createJob, updateJob, deleteJob, showStats) over an
    explicit model of the document collection, and the properties of the
    query pipeline (filter, sort, pagination), of the statistics
    aggregation and of owner scoping; then the router that binds the
    handlers to paths and verbs, and the authentication middleware.

    Conventions.
    - The collection is a [list Job] in natural (insertion) order; handlers
      that write return the new collection next to their outcome.
    - Query-string parameters and body fields are [option string]: [None] is
      JavaScript's [undefined].
    - JavaScript numbers are IEEE doubles.  The embedding tracks the integer
      values of magnitude at most 2^53, where double arithmetic is exact;
      every other number is [Untracked], and a handler that would depend on
      one answers [OutOfModel].  The same holds for regular expressions
      outside the fragment described at [Regex.test]. *)

From Stdlib Require Import ZArith Ascii String List Lia Permutation Sorted DecimalString.
From stdpp Require Import base decidable option list strings gmap sorting.

Local Open Scope Z_scope.

(** ** JavaScript values *)

Module Js.

(** [!v] for a value that is a string or undefined: the falsy ones are
    [undefined] and the empty string. *)
Definition truthy (v : option string) : bool :=
  match v with
  | None => false
  | Some s => negb (String.eqb s "")
  end.

(** [v === lit] for a value that is a string or undefined. *)
Definition strict_eq (v : option string) (lit : string) : bool :=
  match v with
  | None => false
  | Some s => String.eqb s lit
  end.

Inductive Number : Type :=
| NaN
| Num (z : Z)
| Untracked.

Definition safe_bound : Z := 2 ^ 53.

(** An integer result of an arithmetic operation: exact up to 2^53. *)
Definition exact (z : Z) : Number :=
  if Z.abs z <=? safe_bound then Num z else Untracked.

Definition sub (a b : Number) : Number :=
  match a, b with
  | Num x, Num y => exact (x - y)
  | NaN, _ | _, NaN => NaN
  | _, _ => Untracked
  end.

Definition mul (a b : Number) : Number :=
  match a, b with
  | Num x, Num y => exact (x * y)
  | NaN, _ | _, NaN => NaN
  | _, _ => Untracked
  end.

(** [a || d] on numbers: [NaN] and zero are falsy. *)
Definition or_else (a d : Number) : Number :=
  match a with
  | NaN => d
  | Num 0 => d
  | Num _ => a
  | Untracked => Untracked
  end.

(** *** StringToNumber (ECMA-262, 7.1.4.1) *)

Definition code (c : ascii) : N := N_of_ascii c.

Definition is_space (c : ascii) : bool :=
  let n := code c in
  ((9 <=? n) && (n <=? 13) || (n =? 32))%N.

Definition is_digit (c : ascii) : bool :=
  let n := code c in ((48 <=? n) && (n <=? 57))%N.

Definition is_ascii (c : ascii) : bool := (code c <? 128)%N.

Fixpoint all_chars (p : ascii -> bool) (s : string) : bool :=
  match s with
  | EmptyString => true
  | String c r => p c && all_chars p r
  end.

Fixpoint drop_spaces (s : string) : string :=
  match s with
  | String c r => if is_space c then drop_spaces r else s
  | EmptyString => EmptyString
  end.

Fixpoint rev_onto (acc s : string) : string :=
  match s with
  | EmptyString => acc
  | String c r => rev_onto (String c acc) r
  end.

Definition rev_string (s : string) : string := rev_onto EmptyString s.

Definition trim (s : string) : string :=
  rev_string (drop_spaces (rev_string (drop_spaces s))).

(** The longest prefix of decimal digits, and the rest. *)
Fixpoint span_digits (s : string) : string * string :=
  match s with
  | String c r =>
      if is_digit c then let '(d, t) := span_digits r in (String c d, t)
      else (EmptyString, s)
  | EmptyString => (EmptyString, EmptyString)
  end.

Fixpoint map_chars (f : ascii -> ascii) (s : string) : string :=
  match s with
  | EmptyString => EmptyString
  | String c r => String (f c) (map_chars f r)
  end.

Definition nonempty (s : string) : bool :=
  match s with EmptyString => false | _ => true end.

Definition digits (s : string) : bool := nonempty s && all_chars is_digit s.

Definition strip_sign (s : string) : bool * string :=
  match s with
  | String "-" r => (true, r)
  | String "+" r => (false, r)
  | _ => (false, s)
  end.

(** ExponentPart, or nothing. *)
Definition exponent_opt (s : string) : bool :=
  match s with
  | EmptyString => true
  | String c r =>
      (Ascii.eqb c "e" || Ascii.eqb c "E") && digits (snd (strip_sign r))
  end.

(** StrUnsignedDecimalLiteral. *)
Definition unsigned_decimal (s : string) : bool :=
  if String.eqb s "Infinity" then true
  else
    let '(ip, r) := span_digits s in
    match r with
    | String "." r' =>
        let '(fp, r'') := span_digits r' in
        (nonempty ip || nonempty fp) && exponent_opt r''
    | _ => nonempty ip && exponent_opt r
    end.

Definition is_hex (c : ascii) : bool :=
  let n := code c in
  (is_digit c || (65 <=? n) && (n <=? 70) || (97 <=? n) && (n <=? 102))%N.

Definition is_octal (c : ascii) : bool :=
  let n := code c in ((48 <=? n) && (n <=? 55))%N.

Definition is_binary (c : ascii) : bool :=
  Ascii.eqb c "0" || Ascii.eqb c "1".

(** NonDecimalIntegerLiteral: 0x.., 0o.., 0b.. (never signed). *)
Definition non_decimal (s : string) : bool :=
  match s with
  | String "0" (String k r) =>
      if Ascii.eqb k "x" || Ascii.eqb k "X" then nonempty r && all_chars is_hex r
      else if Ascii.eqb k "o" || Ascii.eqb k "O" then nonempty r && all_chars is_octal r
      else if Ascii.eqb k "b" || Ascii.eqb k "B" then nonempty r && all_chars is_binary r
      else false
  | _ => false
  end.

Fixpoint digits_value (acc : Z) (s : string) : Z :=
  match s with
  | EmptyString => acc
  | String c r => digits_value (10 * acc + Z.of_N (code c - 48)) r
  end.

(** [Number(s)] for a string.  A string with a byte outside ASCII may carry
    Unicode white space and is left [Untracked]. *)
Definition of_string (s : string) : Number :=
  if negb (all_chars is_ascii s) then Untracked
  else
    let t := trim s in
    if negb (nonempty t) then Num 0
    else
      let '(neg, body) := strip_sign t in
      if digits body then
        exact (if neg then - digits_value 0 body else digits_value 0 body)
      else if unsigned_decimal body || non_decimal t then Untracked
      else NaN.

(** [Number(v)] for a value that is a string or undefined. *)
Definition to_number (v : option string) : Number :=
  match v with
  | None => NaN
  | Some s => of_string s
  end.

(** [Math.ceil(a / b)] for integers [a] and [b <> 0] whose quotient is
    computed exactly by a double division (magnitudes up to 2^53). *)
Definition ceil_div (a b : Z) : Z := - ((- a) / b).

End Js.

(** ** Outcomes of a handler *)

Inductive Error : Type :=
| BadRequestError (message : string)
| NotFoundError (message : string)
| ValidationError
| CastError
| BSONTypeError
| MongoServerError.

Inductive StatusCode : Type := OK | CREATED | NO_CONTENT.

(** A handler either produces a value, throws (the rejection leaves the
    handler), or steps outside what the embedding tracks. *)
Inductive M (A : Type) : Type :=
| Value (a : A)
| Raise (e : Error)
| OutOfModel.
Arguments Value {A} a.
Arguments Raise {A} e.
Arguments OutOfModel {A}.

#[global] Instance M_ret : MRet M := fun A a => Value a.
#[global] Instance M_bind : MBind M := fun A B f m =>
  match m with
  | Value a => f a
  | Raise e => Raise e
  | OutOfModel => OutOfModel
  end.
#[global] Instance M_fmap : FMap M := fun A B f m =>
  match m with
  | Value a => Value (f a)
  | Raise e => Raise e
  | OutOfModel => OutOfModel
  end.

Definition of_option {A} (o : option A) : M A :=
  match o with
  | Some a => Value a
  | None => OutOfModel
  end.

(** ** Regular expressions of the store: [{ $regex: p, $options: 'i' }] *)

Module Regex.

Inductive atom : Type :=
| Lit (c : ascii)
| Dot.

Definition is_meta (c : ascii) : bool :=
  existsb (Ascii.eqb c)
    ["\"; "^"; "$"; "."; "|"; "?"; "*"; "+"; "("; ")"; "["; "]"; "{"; "}"]%char.

Definition to_lower (c : ascii) : ascii :=
  let n := Js.code c in
  if ((65 <=? n) && (n <=? 90))%N then ascii_of_N (n + 32) else c.

(** A byte that stands for itself in a pattern. *)
Definition plain_char (c : ascii) : bool :=
  Js.is_ascii c && negb (Js.code c =? 0)%N && negb (is_meta c).


(** The patterns of the fragment: ASCII bytes without NUL, [.] the only
    metacharacter.  Everything else is left to the store's engine. *)
Fixpoint compile (p : string) : option (list atom) :=
  match p with
  | EmptyString => Some []
  | String c r =>
      if Ascii.eqb c "." then cons Dot <$> compile r
      else if plain_char c then cons (Lit c) <$> compile r
      else None
  end.

(** The atoms of a pattern read literally. *)
Fixpoint literal (p : string) : list atom :=
  match p with
  | EmptyString => []
  | String c r => Lit c :: literal r
  end.

Definition is_newline (c : ascii) : bool :=
  ((Js.code c =? 10) || (Js.code c =? 13))%N.

Definition atom_matches (a : atom) (c : ascii) : bool :=
  match a with
  | Lit l => Ascii.eqb (to_lower l) (to_lower c)
  | Dot => true
  end.

Fixpoint match_here (atoms : list atom) (s : string) : bool :=
  match atoms, s with
  | [], _ => true
  | a :: r, String c t => atom_matches a c && match_here r t
  | _ :: _, EmptyString => false
  end.

(** An unanchored pattern matches when it matches at some offset. *)
Fixpoint search (atoms : list atom) (s : string) : bool :=
  match_here atoms s
  || match s with
     | String _ t => search atoms t
     | EmptyString => false
     end.

Definition has_dot (atoms : list atom) : bool :=
  existsb (fun a => match a with Dot => true | Lit _ => false end) atoms.

(** Whether an unanchored pattern matches a subject under [$options: 'i'].
    Case folding is tracked on ASCII subjects only, and [.] on subjects
    without line breaks (which it does not match). *)
Definition test (pattern options subject : string) : option bool :=
  if negb (String.eqb options "i") then None
  else
    match compile pattern with
    | Some atoms =>
        if Js.all_chars Js.is_ascii subject
           && negb (has_dot atoms && negb (Js.all_chars (fun c => negb (is_newline c)) subject))
        then Some (search atoms subject)
        else None
    | None => None
    end.

End Regex.

(** ** Requests *)

Definition ObjectId : Type := string.

(** [req.query] of the list route. *)
Module Query.
Record t : Type := mk {
  search : option string;
  status : option string;
  jobType : option string;
  sort : option string;
  page : option string;
  limit : option string
}.
Definition empty : t := mk None None None None None None.
Definition with_status (v : option string) (q : t) : t :=
  mk (search q) v (jobType q) (sort q) (page q) (limit q).
Definition with_jobType (v : option string) (q : t) : t :=
  mk (search q) (status q) v (sort q) (page q) (limit q).
End Query.

(** [req.body] of the create and update routes: the six paths of the schema
    that the handlers name, each a string or undefined, and whether the
    body carries anything else that the store acts on: another key ([_id],
    [createdAt], [updatedAt], an update operator such as [$set]) or, in one
    of the six paths, a value that is not a string (such a path reads as
    undefined here; the handlers compare the paths with the empty string
    only).  The handlers pass the whole body to the store; the embedding
    does not follow a body with such other content into the store: every
    store call on it is [OutOfModel]. *)
Module Body.
Record t : Type := make {
  company : option string;
  position : option string;
  jobLocation : option string;
  status : option string;
  jobType : option string;
  createdBy : option string;
  other_keys : bool
}.
(** A body of these six keys only. *)
Definition mk (company position jobLocation status jobType createdBy : option string)
  : t :=
  make company position jobLocation status jobType createdBy false.
End Body.

(** A filter document, as the handlers build them. *)
Module Filter.
Record t : Type := mk {
  _id : option string;
  createdBy : option string;
  position : option (string * string);   (* $regex, $options *)
  status : option string;
  jobType : option string
}.
End Filter.

(** ** The Job model and the collection *)

Module Job.

Record t : Type := mk {
  _id : ObjectId;
  company : string;
  position : string;
  status : string;
  jobType : string;
  jobLocation : string;
  createdBy : ObjectId;
  createdAt : Z;          (* milliseconds since the epoch, UTC *)
  updatedAt : Z
}.

(** The collection, in natural order. *)
Definition collection : Type := list t.

(** Casting a string to an ObjectId: 24 hexadecimal digits, kept in lower
    case.  (A 12-character string is accepted by some driver versions.) *)
Definition castObjectId (s : string) : M ObjectId :=
  if (String.length s =? 24)%nat && Js.all_chars Js.is_hex s
  then Value (Js.map_chars Regex.to_lower s)
  else if (String.length s =? 12)%nat then OutOfModel
  else Raise CastError.

(** [mongoose.Types.ObjectId(s)]: the same reading of the string, with the
    driver's own error. *)
Definition ObjectId_of (s : string) : M ObjectId :=
  match castObjectId s with
  | Raise _ => Raise BSONTypeError
  | r => r
  end.

Definition opt_eqb (want : option string) (have : string) : bool :=
  match want with
  | None => true
  | Some w => String.eqb w have
  end.

Definition cast_opt (v : option string) : M (option ObjectId) :=
  match v with
  | None => Value None
  | Some s => Some <$> castObjectId s
  end.

(** Casting a filter to the schema: the two ObjectId paths. *)
Definition cast (f : Filter.t) : M Filter.t :=
  id ← cast_opt (Filter._id f);
  owner ← cast_opt (Filter.createdBy f);
  Value (Filter.mk id owner (Filter.position f) (Filter.status f) (Filter.jobType f)).

(** The equality conditions of a (cast) filter: every condition but the
    regular expression. *)
Definition matches_eq (f : Filter.t) (j : t) : bool :=
  opt_eqb (Filter._id f) (_id j)
  && opt_eqb (Filter.createdBy f) (createdBy j)
  && opt_eqb (Filter.status f) (status j)
  && opt_eqb (Filter.jobType f) (jobType j).

(** Whether a document satisfies a (cast) filter: the conjunction of its
    conditions. *)
Definition matches (f : Filter.t) (j : t) : M bool :=
  if matches_eq f j then
    match Filter.position f with
    | None => Value true
    | Some (re, opts) => of_option (Regex.test re opts (position j))
    end
  else Value false.

Fixpoint select (f : Filter.t) (db : collection) : M (list t) :=
  match db with
  | [] => Value []
  | j :: r =>
      b ← matches f j;
      js ← select f r;
      Value (if b : bool then j :: js else js)
  end.

(** *** Queries: [Job.find(filter)] and its chained options *)

Record query : Type := mkq {
  conditions : Filter.t;
  sort_by : option string;
  skip_n : option Js.Number;
  limit_n : option Js.Number
}.

Definition find (f : Filter.t) : query := mkq f None None None.
Definition sort (spec : string) (q : query) : query :=
  mkq (conditions q) (Some spec) (skip_n q) (limit_n q).
Definition skip (n : Js.Number) (q : query) : query :=
  mkq (conditions q) (sort_by q) (Some n) (limit_n q).
Definition limit (n : Js.Number) (q : query) : query :=
  mkq (conditions q) (sort_by q) (skip_n q) (Some n).

(** The store compares strings byte by byte (simple binary collation). *)
Definition by_createdAt (a b : t) : Prop := createdAt a <= createdAt b.
Definition by_position (a b : t) : Prop := String.le (position a) (position b).
#[global] Instance by_createdAt_dec a b : Decision (by_createdAt a b).
Proof. unfold by_createdAt. apply _. Defined.
#[global] Instance by_position_dec a b : Decision (by_position a b).
Proof. unfold by_position. apply _. Defined.

(** A sort specification is a field name, with a leading [-] for
    descending order.  The store fixes no order among documents whose keys
    are equal; here they keep the order the merge leaves them in. *)
Definition order (spec : string) (docs : list t) : M (list t) :=
  if String.eqb spec "createdAt" then Value (merge_sort by_createdAt docs)
  else if String.eqb spec "-createdAt" then Value (merge_sort (flip by_createdAt) docs)
  else if String.eqb spec "position" then Value (merge_sort by_position docs)
  else if String.eqb spec "-position" then Value (merge_sort (flip by_position) docs)
  else OutOfModel.

(** The cursor's skip and limit.  The store rejects a negative skip; limit 0
    means no limit; a negative limit asks for a single batch, whose size
    the embedding does not track. *)
Definition window (sk lim : option Js.Number) (docs : list t) : M (list t) :=
  match default (Js.Num 0) sk, default (Js.Num 0) lim with
  | Js.Num s, Js.Num l =>
      if s <? 0 then Raise MongoServerError
      else if l <? 0 then OutOfModel
      else
        let rest := drop (Z.to_nat s) docs in
        Value (if l =? 0 then rest else take (Z.to_nat l) rest)
  | _, _ => OutOfModel
  end.

(** The documents a filter selects, in natural order: the filter is cast,
    then every document is tested. *)
Definition scan (f : Filter.t) (db : collection) : M (list t) :=
  f' ← cast f;
  select f' db.

(** [await query]. *)
Definition exec (q : query) (db : collection) : M (list t) :=
  found ← scan (conditions q) db;
  sorted ← match sort_by q with
           | None => Value found
           | Some spec => order spec found
           end;
  window (skip_n q) (limit_n q) sorted.

Definition countDocuments (f : Filter.t) (db : collection) : M Z :=
  found ← scan f db;
  Value (Z.of_nat (length found)).

Definition findOne (f : Filter.t) (db : collection) : M (option t) :=
  found ← scan f db;
  Value (head found).

(** *** The schema *)

(** The schema of models/Job.js is not among the sources; the enumerations,
    defaults, validators and the immutability of createdBy below are taken
    from the data model of the specification (section 3).  createdAt and
    updatedAt are managed by the store. *)

(** Modelled from the spec: the enumeration of status in models/Job.js. *)
Definition statusEnum : list string := ["pending"; "interview"; "declined"].

(** Modelled from the spec: the enumeration of jobType in models/Job.js. *)
Definition jobTypeEnum : list string :=
  ["full-time"; "part-time"; "remote"; "internship"].

(** Modelled from the spec: the default of status in models/Job.js. *)
Definition defaultStatus : string := "pending".

(** Modelled from the spec: the default of jobType in models/Job.js. *)
Definition defaultJobType : string := "full-time".

(** The enum validator: it passes an absent value. *)
Definition in_enum (e : list string) (v : option string) : bool :=
  match v with
  | None => true
  | Some s => existsb (String.eqb s) e
  end.

(** Modelled from the spec: the validators of models/Job.js on a new
    document: company and position are required and non-empty, status and
    jobType range over their enumerations. *)
Definition validate (b : Body.t) : bool :=
  Js.truthy (Body.company b)
  && Js.truthy (Body.position b)
  && in_enum statusEnum (Body.status b)
  && in_enum jobTypeEnum (Body.jobType b).

(** The required validator on a path that an update may set. *)
Definition set_nonempty (v : option string) : bool :=
  match v with
  | None => true
  | Some s => negb (String.eqb s "")
  end.

(** Modelled from the spec: the validators of models/Job.js as update
    validators ([runValidators: true]): they run on the paths the update
    sets, and on those only. *)
Definition validate_update (b : Body.t) : bool :=
  set_nonempty (Body.company b)
  && set_nonempty (Body.position b)
  && in_enum statusEnum (Body.status b)
  && in_enum jobTypeEnum (Body.jobType b).

(** *** Writes *)

(** Casting a path of a new document: a failed cast is reported by
    validation. *)
Definition cast_path (s : string) : M ObjectId :=
  match castObjectId s with
  | Raise _ => Raise ValidationError
  | r => r
  end.

(** [Job.create(body)]: the document is appended under a fresh identifier
    [fresh], stamped with the current time [now]; [defaultJobLocation] is
    the default the schema configures for jobLocation. *)
Definition create (defaultJobLocation : string) (b : Body.t)
    (fresh : ObjectId) (now : Z) (db : collection)
  : M (t * collection) :=
  if Body.other_keys b then OutOfModel
  else
    match Body.createdBy b with
    | None => Raise ValidationError
    | Some o =>
        owner ← cast_path o;
        if validate b then
          let j := mk fresh
                     (default "" (Body.company b))
                     (default "" (Body.position b))
                     (default defaultStatus (Body.status b))
                     (default defaultJobType (Body.jobType b))
                     (default defaultJobLocation (Body.jobLocation b))
                     owner now now in
          Value (j, db ++ [j])
        else Raise ValidationError
    end.

(** Modelled from the spec: createdBy is declared immutable in
    models/Job.js (section 3: the owner reference is immutable after
    creation).  The store drops an immutable path from an update document
    before it casts it, so what an update can set is the body without its
    createdBy. *)
Definition settable (b : Body.t) : Body.t :=
  Body.make (Body.company b) (Body.position b) (Body.jobLocation b)
            (Body.status b) (Body.jobType b) None (Body.other_keys b).

(** An update document that sets no path. *)
Definition sets_nothing (b : Body.t) : bool :=
  match Body.company b, Body.position b, Body.jobLocation b,
        Body.status b, Body.jobType b, Body.createdBy b with
  | None, None, None, None, None, None => true
  | _, _, _, _, _, _ => false
  end.

(** [$set] of every path the update document carries, and of updatedAt. *)
Definition apply_update (b : Body.t) (now : Z) (j : t) : t :=
  mk (_id j)
     (default (company j) (Body.company b))
     (default (position j) (Body.position b))
     (default (status j) (Body.status b))
     (default (jobType j) (Body.jobType b))
     (default (jobLocation j) (Body.jobLocation b))
     (createdBy j)
     (createdAt j) now.

(** The first document satisfying the filter is replaced by [g] of it, or
    removed when [g] gives nothing; the document found is returned. *)
Fixpoint modify_first (f : Filter.t) (g : t -> option t) (db : collection)
  : M (option t * collection) :=
  match db with
  | [] => Value (None, [])
  | j :: r =>
      b ← matches f j;
      if b : bool then Value (Some j, option_list (g j) ++ r)
      else
        '(found, r') ← modify_first f g r;
        Value (found, j :: r')
  end.

(** [Job.findOneAndUpdate(filter, update, { new: true, runValidators: true })]:
    the update is cast and validated before the store is asked; the updated
    document is returned.  What the store does with an update that sets
    nothing (whether it writes at all, and stamps updatedAt) is not
    followed. *)
Definition findOneAndUpdate (f : Filter.t) (b : Body.t) (now : Z) (db : collection)
  : M (option t * collection) :=
  let b := settable b in
  if Body.other_keys b || sets_nothing b then OutOfModel
  else
    f' ← cast f;
    if validate_update b then
      '(found, db') ← modify_first f' (fun j => Some (apply_update b now j)) db;
      Value (apply_update b now <$> (found : option t), db')
    else Raise ValidationError.

(** [Job.findOneAndDelete(filter)]: the removed document is returned. *)
Definition findOneAndDelete (f : Filter.t) (db : collection)
  : M (option t * collection) :=
  f' ← cast f;
  modify_first f' (fun _ => None) db.

End Job.

(** ** Aggregation stages *)

Module MongoDate.

Definition ms_per_day : Z := 86400000.

(** The civil date (year, month 1-12, day) of a day number counted from
    1970-01-01, in the proleptic Gregorian calendar. *)
Definition civil (day : Z) : Z * Z * Z :=
  let z := day + 719468 in
  let era := z / 146097 in
  let doe := z - era * 146097 in
  let yoe := (doe - doe / 1460 + doe / 36524 - doe / 146096) / 365 in
  let y := yoe + era * 400 in
  let doy := doe - (365 * yoe + yoe / 4 - yoe / 100) in
  let mp := (5 * doy + 2) / 153 in
  let d := doy - (153 * mp + 2) / 5 + 1 in
  let m := if mp <? 10 then mp + 3 else mp - 9 in
  (if m <=? 2 then y + 1 else y, m, d).

(** [{ $year: date }] and [{ $month: date }], in UTC. *)
Definition year (ms : Z) : Z := fst (fst (civil (ms / ms_per_day))).
Definition month (ms : Z) : Z := snd (fst (civil (ms / ms_per_day))).

End MongoDate.

Module Pipeline.

(** [{ $match: { createdBy: owner } }]. *)
Definition match_createdBy (owner : ObjectId) (docs : list Job.t) : list Job.t :=
  List.filter (fun j => String.eqb owner (Job.createdBy j)) docs.

Section group.
Context {K : Type} `{EqDecision K}.

(** One more document in the group of key [k]. *)
Fixpoint bump (k : K) (gs : list (K * nat)) : list (K * nat) :=
  match gs with
  | [] => [(k, 1%nat)]
  | (k', n) :: r =>
      if decide (k = k') then (k', S n) :: r else (k', n) :: bump k r
  end.

(** [{ $group: { _id: key, count: { $sum: 1 } } }]. *)
Definition group_count (key : Job.t -> K) (docs : list Job.t) : list (K * nat) :=
  foldl (fun gs d => bump (key d) gs) [] docs.
End group.

(** The order of [{ '_id.year': 1, '_id.month': 1 }] on group keys. *)
Definition ym_le (a b : Z * Z) : Prop :=
  fst a < fst b \/ (fst a = fst b /\ snd a <= snd b).
#[global] Instance ym_le_dec a b : Decision (ym_le a b).
Proof. unfold ym_le. apply _. Defined.

Definition ym_lt (a b : Z * Z) : Prop :=
  fst a < fst b \/ (fst a = fst b /\ snd a < snd b).

(** [{ $sort: { '_id.year': -1, '_id.month': -1 } }]. *)
Definition newer_first (a b : (Z * Z) * nat) : Prop := ym_le (fst b) (fst a).
#[global] Instance newer_first_dec a b : Decision (newer_first a b).
Proof. unfold newer_first. apply _. Defined.

Definition sort_year_month_desc (gs : list ((Z * Z) * nat)) : list ((Z * Z) * nat) :=
  merge_sort newer_first gs.

End Pipeline.

(** ** moment *)

Module Moment.

(** The calendar fields of a moment in local time; months count from 0. *)
Record t : Type := mk { y : Z; mon : Z; d : Z }.

Definition isLeapYear (year : Z) : bool :=
  (Z.rem year 4 =? 0) && negb (Z.rem year 100 =? 0) || (Z.rem year 400 =? 0).

Definition daysInMonth (year month : Z) : Z :=
  let modMonth := month mod 12 in
  let year := year + (month - modMonth) / 12 in
  if modMonth =? 1 then (if isLeapYear year then 29 else 28)
  else 31 - Z.rem (Z.rem modMonth 7) 2.

(** [Date.prototype.setFullYear(y, m, d)] for a day from 1 to 31: a month
    outside 0-11 carries into the year, a day past the end of the month
    into the next month. *)
Definition make_date (year month day : Z) : t :=
  let year := year + month / 12 in
  let month := month mod 12 in
  if day <=? daysInMonth year month then mk year month day
  else mk (year + (month + 1) / 12) ((month + 1) mod 12) (day - daysInMonth year month).

(** [mom.month(value)]: the day of the month is clamped to the target
    month's length. *)
Definition month (value : Z) (m : t) : t :=
  let dayOfMonth := Z.min (d m) (daysInMonth (y m) value) in
  make_date (y m) value dayOfMonth.

(** [mom.year(value)]. *)
Definition year (value : Z) (m : t) : t :=
  if isLeapYear (y m) && (mon m =? 1) && (d m =? 29)
  then make_date value (mon m) (daysInMonth value (mon m))
  else make_date value (mon m) (d m).

Definition monthsShort : list string :=
  ["Jan"; "Feb"; "Mar"; "Apr"; "May"; "Jun";
   "Jul"; "Aug"; "Sep"; "Oct"; "Nov"; "Dec"].

Definition decimal (n : Z) : string := NilZero.string_of_uint (N.to_uint (Z.to_N n)).

Fixpoint zeros (n : nat) : string :=
  match n with
  | O => EmptyString
  | S k => String "0" (zeros k)
  end.

Definition zeroFill (number : Z) (targetLength : nat) : string :=
  let absNumber := decimal (Z.abs number) in
  (if 0 <=? number then "" else "-")
  +:+ zeros (targetLength - String.length absNumber) +:+ absNumber.

(** The [Y] token. *)
Definition format_Y (year : Z) : string :=
  if year <=? 9999 then zeroFill year 4 else "+" +:+ decimal year.

(** [mom.format('MMM Y')]. *)
Definition format_MMM_Y (m : t) : string :=
  nth (Z.to_nat (mon m)) monthsShort "" +:+ " " +:+ format_Y (y m).

(** A moment that [moment()] can return: a date of the calendar. *)
Definition valid (m : t) : Prop :=
  0 <= mon m <= 11 /\ 1 <= d m <= daysInMonth (y m) (mon m).

End Moment.

(** ** The handlers of controllers/jobs.js *)

Record JobsPage : Type := {
  jobs : list Job.t;
  totalJobs : Z;
  numOfPages : Z
}.

(** [Math.ceil(totalJobs / limit)]. *)
Definition ceil_quot (total : Z) (limit : Js.Number) : M Z :=
  match limit with
  | Js.Num l => if l =? 0 then OutOfModel else Value (Js.ceil_div total l)
  | _ => OutOfModel
  end.

(** Lines 11-25: the filter of the list route. *)
Definition queryObject (userId : string) (q : Query.t) : Filter.t :=
  let qo := Filter.mk None (Some userId) None None None in
  let qo :=
    if Js.truthy (Query.search q)
    then Filter.mk (Filter._id qo) (Filter.createdBy qo)
           (Some (default "" (Query.search q), "i"))
           (Filter.status qo) (Filter.jobType qo)
    else qo in
  let qo :=
    if Js.truthy (Query.status q) && negb (Js.strict_eq (Query.status q) "all")
    then Filter.mk (Filter._id qo) (Filter.createdBy qo) (Filter.position qo)
           (Query.status q) (Filter.jobType qo)
    else qo in
  let qo :=
    if Js.truthy (Query.jobType q) && negb (Js.strict_eq (Query.jobType q) "all")
    then Filter.mk (Filter._id qo) (Filter.createdBy qo) (Filter.position qo)
           (Filter.status qo) (Query.jobType q)
    else qo in
  qo.

(** Lines 31-42: the chained sort conditions. *)
Definition sorted_query (sort : option string) (result : Job.query) : Job.query :=
  let result := if Js.strict_eq sort "latest" then Job.sort "-createdAt" result else result in
  let result := if Js.strict_eq sort "oldest" then Job.sort "createdAt" result else result in
  let result := if Js.strict_eq sort "a-z" then Job.sort "position" result else result in
  let result := if Js.strict_eq sort "z-a" then Job.sort "-position" result else result in
  result.

(** Lines 46-48. *)
Definition page_of (q : Query.t) : Js.Number :=
  Js.or_else (Js.to_number (Query.page q)) (Js.Num 1).
Definition limit_of (q : Query.t) : Js.Number :=
  Js.or_else (Js.to_number (Query.limit q)) (Js.Num 10).
Definition skip_of (q : Query.t) : Js.Number :=
  Js.mul (Js.sub (page_of q) (Js.Num 1)) (limit_of q).

Definition getAllJobs (userId : string) (q : Query.t) (db : Job.collection)
  : M (StatusCode * JobsPage) :=
  let qo := queryObject userId q in
  let result := Job.find qo in
  let result := sorted_query (Query.sort q) result in
  let page := page_of q in
  let limit := limit_of q in
  let skip := skip_of q in
  let result := Job.limit limit (Job.skip skip result) in
  jobs ← Job.exec result db;
  totalJobs ← Job.countDocuments qo db;
  numOfPages ← ceil_quot totalJobs limit;
  Value (OK, Build_JobsPage jobs totalJobs numOfPages).

Definition no_job (jobId : string) : Error :=
  NotFoundError ("No job with the id " +:+ jobId).

Definition getJob (userId jobId : string) (db : Job.collection)
  : M (StatusCode * Job.t) :=
  job ← Job.findOne (Filter.mk (Some jobId) (Some userId) None None None) db;
  match job with
  | None => Raise (no_job jobId)
  | Some j => Value (OK, j)
  end.

(** The handlers that write return the collection they leave behind next to
    their outcome; a handler that does not answer leaves it as it was. *)
Definition committed {A} (db : Job.collection) (r : M (A * Job.collection))
  : M A * Job.collection :=
  match r with
  | Value (a, db') => (Value a, db')
  | Raise e => (Raise e, db)
  | OutOfModel => (OutOfModel, db)
  end.

Definition createJob (defaultJobLocation : string) (userId : string)
    (body : Body.t) (fresh : ObjectId) (now : Z) (db : Job.collection)
  : M (StatusCode * Job.t) * Job.collection :=
  let body := Body.make (Body.company body) (Body.position body)
                (Body.jobLocation body) (Body.status body) (Body.jobType body)
                (Some userId) (Body.other_keys body) in
  committed db (
    '(job, db') ← Job.create defaultJobLocation body fresh now db;
    Value ((CREATED, job), db')).

(** Lines 95-103: the operands of the comma operator are evaluated in turn
    and the value of the last one is the value of the condition. *)
Definition comma {A B} (_ : A) (b : B) : B := b.

Definition update_rejected (body : Body.t) : bool :=
  comma
    (negb (Js.truthy (Body.company body))
     || negb (Js.truthy (Body.position body))
     || Js.strict_eq (Body.company body) ""
     || Js.strict_eq (Body.position body) ""
     || Js.strict_eq (Body.jobLocation body) ""
     || Js.strict_eq (Body.status body) "")
    (Js.strict_eq (Body.jobType body) "").

Definition updateJob (userId jobId : string) (body : Body.t)
    (now : Z) (db : Job.collection)
  : M (StatusCode * Job.t) * Job.collection :=
  committed db (
    if update_rejected body
    then Raise (BadRequestError "Company or Position fields cannot be empty")
    else
      '(job, db') ← Job.findOneAndUpdate
                       (Filter.mk (Some jobId) (Some userId) None None None)
                       body now db;
      match job with
      | None => Raise (no_job jobId)
      | Some j => Value ((OK, j), db')
      end).

Definition deleteJob (userId jobId : string) (db : Job.collection)
  : M (StatusCode * unit) * Job.collection :=
  committed db (
    '(job, db') ← Job.findOneAndDelete
                     (Filter.mk (Some jobId) (Some userId) None None None) db;
    match job with
    | None => Raise (no_job jobId)
    | Some _ => Value ((NO_CONTENT, tt), db')
    end).

Record DefaultStats : Type := {
  pending : nat;
  interview : nat;
  declined : nat
}.

Record MonthEntry : Type := {
  date : string;
  count : nat
}.

Record Stats : Type := {
  defaultStats : DefaultStats;
  monthlyApplications : list MonthEntry
}.

(** [v || 0] for a count or undefined. *)
Definition or_zero (v : option nat) : nat := default 0%nat v.

(** Lines 148-152: the groups folded into an object keyed by status. *)
Definition stats_object (groups : list (string * nat)) : gmap string nat :=
  foldl (fun acc curr => let '(title, count) := curr in <[title := count]> acc)
        ∅ groups.

(** Lines 175-186: a group relabelled through [moment()], here [now]. *)
Definition relabel (now : Moment.t) (item : (Z * Z) * nat) : MonthEntry :=
  let '((year, month), count) := item in
  let date := Moment.format_MMM_Y (Moment.year year (Moment.month (month - 1) now)) in
  {| date := date; count := count |}.

Definition year_month (j : Job.t) : Z * Z :=
  (MongoDate.year (Job.createdAt j), MongoDate.month (Job.createdAt j)).

(** Lines 160-173: the groups of the monthly pipeline, newest first. *)
Definition monthly_pipeline (owner : ObjectId) (db : Job.collection)
  : list ((Z * Z) * nat) :=
  take 6 (Pipeline.sort_year_month_desc
            (Pipeline.group_count year_month (Pipeline.match_createdBy owner db))).

Definition showStats (userId : string) (now : Moment.t) (db : Job.collection)
  : M (StatusCode * Stats) :=
  owner ← Job.ObjectId_of userId;
  let stats := Pipeline.group_count Job.status (Pipeline.match_createdBy owner db) in
  let stats := stats_object stats in
  let defaultStats :=
    {| pending := or_zero (stats !! "pending");
       interview := or_zero (stats !! "interview");
       declined := or_zero (stats !! "declined") |} in
  owner ← Job.ObjectId_of userId;
  let monthlyApplications := monthly_pipeline owner db in
  let monthlyApplications := reverse (map (relabel now) monthlyApplications) in
  Value (OK, {| defaultStats := defaultStats;
                monthlyApplications := monthlyApplications |}).

(** ** Vocabulary of the properties *)

(** The caller [userId] owns the document. *)
Definition owned_by (userId : string) (j : Job.t) : Prop :=
  Job.castObjectId userId = Value (Job.createdBy j).

(** The caller's own documents, in natural order: those whose createdBy is
    the ObjectId the caller's identifier denotes. *)
Definition mine (userId : string) (db : Job.collection) : Job.collection :=
  match Job.castObjectId userId with
  | Value owner => List.filter (fun j => String.eqb (Job.createdBy j) owner) db
  | _ => []
  end.

(** The filter that selects one document of one owner. *)
Definition one_of (userId jobId : string) : Filter.t :=
  Filter.mk (Some jobId) (Some userId) None None None.

(** A string with its ASCII letters in lower case. *)
Definition lower (s : string) : string := Js.map_chars Regex.to_lower s.






(** Everything the list route selects for a caller, sorted as requested,
    before pagination. *)
Definition listing (userId : string) (q : Query.t) (db : Job.collection)
  : M (list Job.t) :=
  Job.exec (sorted_query (Query.sort q) (Job.find (queryObject userId q))) db.

Definition newest_first (a b : Job.t) : Prop := Job.createdAt b <= Job.createdAt a.
Definition oldest_first (a b : Job.t) : Prop := Job.createdAt a <= Job.createdAt b.
Definition a_to_z (a b : Job.t) : Prop := String.le (Job.position a) (Job.position b).
Definition z_to_a (a b : Job.t) : Prop := String.le (Job.position b) (Job.position a).

(** The sort values the list route recognises. *)
Definition known_sort (v : option string) : bool :=
  Js.strict_eq v "latest" || Js.strict_eq v "oldest"
  || Js.strict_eq v "a-z" || Js.strict_eq v "z-a".

(** The number of documents of an owner with a given status, and the number
    of all documents of an owner. *)
Definition count_status (owner : ObjectId) (status : string) (db : Job.collection) : nat :=
  length (List.filter
            (fun j => String.eqb (Job.createdBy j) owner && String.eqb (Job.status j) status)
            db).

Definition count_owned (owner : ObjectId) (db : Job.collection) : nat :=
  length (List.filter (fun j => String.eqb (Job.createdBy j) owner) db).

(** The number of documents of an owner created in a given (year, month). *)
Definition count_month (owner : ObjectId) (ym : Z * Z) (db : Job.collection) : nat :=
  length (List.filter
            (fun j => String.eqb (Job.createdBy j) owner
                      && bool_decide (year_month j = ym))
            db).

(** The label of a month (1-12) of a year. *)
Definition month_label (month year : Z) : string :=
  nth (Z.to_nat (month - 1)) Moment.monthsShort "" +:+ " " +:+ Moment.format_Y year.

(** The count recorded for a key in a list of groups. *)
Fixpoint count_of {K : Type} `{EqDecision K} (k : K) (gs : list (K * nat)) : nat :=
  match gs with
  | [] => 0%nat
  | (k', n) :: r => if decide (k = k') then n else count_of k r
  end.

(** The number of documents whose key is [k]. *)
Definition tally {K : Type} `{EqDecision K} (key : Job.t -> K) (k : K)
    (docs : list Job.t) : nat :=
  length (List.filter (fun d => bool_decide (key d = k)) docs).

(** Groups have distinct keys and positive counts. *)
Definition well_grouped {K : Type} (gs : list (K * nat)) : Prop :=
  NoDup gs.*1 /\ Forall (fun g => (0 < g.2)%nat) gs.

(** Strictly older, on groups. *)
Definition older (a b : (Z * Z) * nat) : Prop := Pipeline.ym_lt (fst a) (fst b).

(** The contract the message of updateJob states: company or position is
    absent or empty. *)
Definition company_or_position_missing (body : Body.t) : bool :=
  negb (Js.truthy (Body.company body)) || negb (Js.truthy (Body.position body)).


(** One call of updateJob: the caller, the identifier of the route, the
    body and the time of the call. *)
Module Call.
Record t : Type := mk {
  userId : string;
  jobId : string;
  body : Body.t;
  now : Z
}.
End Call.


(** ** Sample data *)

Definition alice : string := "64661a2538227f5f90ae7fdd".
Definition bob : string := "64661a2538227f5f90ae7fde".

Definition job_id (tag : ascii) : ObjectId :=
  "00000000000000000000000" +:+ String tag "".

Definition job_at (tag : ascii) (owner position status : string) (createdAt : Z)
  : Job.t :=
  Job.mk (job_id tag) "Acme" position status "full-time" "my city"
         owner createdAt createdAt.

(** 2023-05-18, 2023-06-02 and 2023-06-20; natural order is not sorted. *)
Definition engineer : Job.t := job_at "1" alice "Engineer" "pending" 1684412965000.
Definition analyst : Job.t := job_at "2" alice "Analyst" "pending" 1687262400000.
Definition director : Job.t := job_at "3" alice "Director" "interview" 1685707200000.
Definition bobs_job : Job.t := job_at "4" bob "Engineer" "declined" 1685000000000.



Definition three_jobs : Job.collection := [engineer; analyst; director].
Definition shared_db : Job.collection := [engineer; bobs_job; analyst; director].

(** Twelve documents of one owner, one per day. *)
Definition twelve_jobs : Job.collection :=
  imap (fun i tag =>
          job_at tag alice "Engineer" "pending"
                 (1684412965000 + Z.of_nat i * MongoDate.ms_per_day))
       ["0"; "1"; "2"; "3"; "4"; "5"; "6"; "7"; "8"; "9"; "a"; "b"]%char.

(** ** More vocabulary *)

(** The document has the identifier [id] and the owner [owner]. *)
Definition is_job (id owner : ObjectId) (j : Job.t) : bool :=
  String.eqb id (Job._id j) && String.eqb owner (Job.createdBy j).

(** What never changes in a document: its identifier and its creation
    time. *)
Definition birth (db : Job.collection) : list (ObjectId * Z) :=
  map (fun j => (Job._id j, Job.createdAt j)) db.

(** A parameter given as the empty string, read as absent. *)
Definition absent_if_empty (v : option string) : option string :=
  match v with
  | Some EmptyString => None
  | _ => v
  end.

(** The query with every empty parameter dropped. *)
Definition without_empty (q : Query.t) : Query.t :=
  Query.mk (absent_if_empty (Query.search q)) (absent_if_empty (Query.status q))
           (absent_if_empty (Query.jobType q)) (absent_if_empty (Query.sort q))
           (absent_if_empty (Query.page q)) (absent_if_empty (Query.limit q)).

(** The query with another page parameter. *)
Definition with_page (v : option string) (q : Query.t) : Query.t :=
  Query.mk (Query.search q) (Query.status q) (Query.jobType q) (Query.sort q)
           v (Query.limit q).


(** The documents are arranged as the sort value asks. *)
Definition in_order (sort : option string) (docs : list Job.t) : Prop :=
  (sort = Some "latest" -> StronglySorted newest_first docs)
  /\ (sort = Some "oldest" -> StronglySorted oldest_first docs)
  /\ (sort = Some "a-z" -> StronglySorted a_to_z docs)
  /\ (sort = Some "z-a" -> StronglySorted z_to_a docs).

(** The sort value is one the list route knows, and no two of the documents
    have the same value of the path it sorts by: the store leaves the order
    of documents with equal keys, and the order of an unsorted query, open
    from one query to the next. *)
Definition distinct_sort_keys (sort : option string) (docs : list Job.t) : Prop :=
  if Js.strict_eq sort "latest" || Js.strict_eq sort "oldest"
  then NoDup (map Job.createdAt docs)
  else if Js.strict_eq sort "a-z" || Js.strict_eq sort "z-a"
  then NoDup (map Job.position docs)
  else False.

(** The pages of a listing of [n] pages of [l] documents. *)
Definition chunks (l n : nat) (sorted : list Job.t) : list (list Job.t) :=
  map (fun i => take l (drop (i * l) sorted)) (seq 0 n).

(** ** The authentication middleware (auth) *)

(** The payload of a verified token, as far as the middleware reads it. *)
Module Payload.
Record t : Type := mk { userId : option string }.
End Payload.

(** [req.user]. *)
Module User.
Record t : Type := mk { userId : option string; testUser : bool }.
End User.

(** The middleware either sets [req.user] and calls [next()], or throws an
    UnauthenticatedError. *)
Inductive Verdict : Type :=
| Next (user : User.t)
| UnauthenticatedError (message : string).

(** [s.split(sep)] for a separator of one character. *)
Fixpoint split (sep : ascii) (s : string) : list string :=
  match s with
  | EmptyString => [EmptyString]
  | String c r =>
      if Ascii.eqb c sep then EmptyString :: split sep r
      else match split sep r with
           | h :: t => String c h :: t
           | [] => [String c EmptyString]
           end
  end.

(** [s.startsWith(p)]. *)
Definition startsWith (s p : string) : bool := String.prefix p s.

(** The identifier of the demo user. *)
Definition demo_user : string := "64661a2538227f5f90ae7fdd".

(** Lines 26-51 of the middleware.  [verify] is [jwt.verify] under the
    configured secret: it gives the payload of a token, or nothing when it
    throws; it throws on an undefined token. *)
Definition auth (verify : string -> option Payload.t) (authorization : option string)
  : Verdict :=
  let authHeader := authorization in
  if negb (Js.truthy authHeader) || negb (startsWith (default "" authHeader) "Bearer ")
  then UnauthenticatedError "Authentication invalid"
  else
    let token := nth_error (split " " (default "" authHeader)) 1 in
    match token ≫= verify with
    | Some payload =>
        let testUser := Js.strict_eq (Payload.userId payload) demo_user in
        Next (User.mk (Payload.userId payload) testUser)
    | None => UnauthenticatedError "Authentication invalid"
    end.

(** A string without a space. *)
Definition no_space (s : string) : bool :=
  Js.all_chars (fun c => negb (Ascii.eqb c " ")) s.

(** ** The router (routes/jobs.js) *)

Module Route.

(** The verbs of the requests followed here.  HEAD and OPTIONS are not
    among them: the framework answers a HEAD request through the GET
    handlers of a route and an OPTIONS request by itself. *)
Inductive verb : Type := GET | POST | PATCH | DELETE | PUT.

Inductive controller : Type :=
| CreateJob | GetAllJobs | ShowStats | GetJob | UpdateJob | DeleteJob.

(** The paths of the router: [/], a fixed segment, a parameter. *)
Inductive pattern : Type :=
| Root
| Segment (name : string)
| Param (name : string).

(** A handler stack: whether testUser comes first, and the controller. *)
Definition stack : Type := (bool * controller)%type.

(** Lines 13-19, in the order of registration. *)
Definition routes : list (pattern * list (verb * stack)) :=
  [ (Root, [(POST, (true, CreateJob)); (GET, (false, GetAllJobs))]);
    (Segment "stats", [(GET, (false, ShowStats))]);
    (Param "id", [(GET, (false, GetJob));
                  (PATCH, (true, UpdateJob));
                  (DELETE, (true, DeleteJob))]) ].

Definition verb_eqb (a b : verb) : bool :=
  match a, b with
  | GET, GET | POST, POST | PATCH, PATCH | DELETE, DELETE | PUT, PUT => true
  | _, _ => false
  end.

(** Whether a pattern matches a path, given as its segments, and the
    parameter it binds.  Fixed segments are compared without regard to
    letter case (the router's default).  The router matches the path as it
    was sent and hands the parameter to the handler percent-decoded: the
    segments followed here hold no percent escape, so that both are the
    same string. *)
Definition bind (p : pattern) (path : list string) : option (option string) :=
  match p, path with
  | Root, [] => Some None
  | Segment name, [s] => if String.eqb (lower s) (lower name) then Some None else None
  | Param _, [s] => Some (Some s)
  | _, _ => None
  end.

Definition handler_for (v : verb) (handlers : list (verb * stack)) : option stack :=
  snd <$> List.find (fun h => verb_eqb v (fst h)) handlers.

(** The first route, in order, whose path matches and which handles the
    verb. *)
Fixpoint dispatch_in (table : list (pattern * list (verb * stack)))
    (v : verb) (path : list string) : option (stack * option string) :=
  match table with
  | [] => None
  | (p, handlers) :: rest =>
      match bind p path, handler_for v handlers with
      | Some param, Some s => Some (s, param)
      | _, _ => dispatch_in rest v path
      end
  end.

Definition dispatch : verb -> list string -> option (stack * option string) :=
  dispatch_in routes.

End Route.

(** A request as the router and the controllers read it; the path is
    given by its segments, none of which holds a percent escape. *)
Module Request.
Record t : Type := mk {
  verb : Route.verb;
  path : list string;
  query : Query.t;
  body : Body.t;
  userId : string
}.
End Request.

(** What a controller sends. *)
Inductive Reply : Type :=
| Listed (page : JobsPage)
| Single (job : Job.t)
| Summary (stats : Stats)
| Empty.

(** What the handlers need from outside the request: the outcome of the
    testUser middleware for the caller (middleware/testUser.js is not among
    the sources), the default jobLocation, a fresh identifier and the
    clock. *)
Module Env.
Record t : Type := mk {
  testUser : M unit;
  defaultJobLocation : string;
  fresh : ObjectId;
  now : Z;
  today : Moment.t
}.
End Env.

Definition reply {A} (wrap : A -> Reply) (r : M (StatusCode * A))
  : M (StatusCode * Reply) :=
  prod_map id wrap <$> r.

Definition run (env : Env.t) (c : Route.controller) (param : option string)
    (req : Request.t) (db : Job.collection)
  : M (StatusCode * Reply) * Job.collection :=
  let id := default "" param in
  match c with
  | Route.GetAllJobs =>
      (reply Listed (getAllJobs (Request.userId req) (Request.query req) db), db)
  | Route.ShowStats =>
      (reply Summary (showStats (Request.userId req) (Env.today env) db), db)
  | Route.GetJob =>
      (reply Single (getJob (Request.userId req) id db), db)
  | Route.CreateJob =>
      let '(r, db') := createJob (Env.defaultJobLocation env) (Request.userId req)
                         (Request.body req) (Env.fresh env) (Env.now env) db in
      (reply Single r, db')
  | Route.UpdateJob =>
      let '(r, db') := updateJob (Request.userId req) id (Request.body req)
                         (Env.now env) db in
      (reply Single r, db')
  | Route.DeleteJob =>
      let '(r, db') := deleteJob (Request.userId req) id db in
      (reply (fun _ => Empty) r, db')
  end.

(** A request through the router: nothing when no route handles it. *)
Definition serve (env : Env.t) (req : Request.t) (db : Job.collection)
  : option (M (StatusCode * Reply) * Job.collection) :=
  match Route.dispatch (Request.verb req) (Request.path req) with
  | None => None
  | Some ((guarded, c), param) =>
      Some (if guarded : bool then
              match Env.testUser env with
              | Value _ => run env c param req db
              | Raise e => (Raise e, db)
              | OutOfModel => (OutOfModel, db)
              end
            else run env c param req db)
  end.

(** A caller whom testUser refuses, and three of their requests. *)
Definition refusing_env : Env.t :=
  Env.mk (Raise (BadRequestError "read only")) "my city" (job_id "9") 0
         (Moment.mk 2024 1 15).
Definition list_request : Request.t :=
  Request.mk Route.GET [] Query.empty (Body.mk None None None None None None) alice.
Definition delete_request : Request.t :=
  Request.mk Route.DELETE [job_id "1"] Query.empty
             (Body.mk None None None None None None) alice.
Definition stats_request : Request.t :=
  Request.mk Route.GET ["Stats"] Query.empty
             (Body.mk None None None None None None) alice.

(** The newest first, five to a page. *)
Definition latest_by_five : Query.t :=
  Query.mk None None None (Some "latest") None (Some "5").

(** The statistics of [alice] in [shared_db]. *)
Definition alice_stats : Stats :=
  {| defaultStats := {| pending := 2; interview := 1; declined := 0 |};
     monthlyApplications := [ {| date := "May 2023"; count := 1 |};
                              {| date := "Jun 2023"; count := 2 |} ] |}.

(** Two request bodies: a new job that names another owner, and a change of
    status and type. *)
Definition tester_body : Body.t :=
  Body.mk (Some "Initech") (Some "Tester") None None None (Some bob).
Definition declined_body : Body.t :=
  Body.mk None None None (Some "declined") (Some "remote") None.

(** The job [alice] creates in [shared_db] with the first body, and what
    her update of [director] with the second makes of it. *)
Definition tester_job : Job.t :=
  Job.mk (job_id "5") "Initech" "Tester" "pending" "full-time" "my city"
         alice 1700000000000 1700000000000.
Definition declined_director : Job.t :=
  Job.mk (job_id "3") "Acme" "Director" "declined" "remote" "my city"
         alice 1685707200000 1700000000000.

(** * Properties *)

Ltac unfoldM := unfold mbind, M_bind, mret, M_ret, fmap, M_fmap in *.

(** ** Owner scoping *)

Section owner_scoping.
Variable owner : ObjectId.
Variable f : Filter.t.
Hypothesis scoped : Filter.createdBy f = Some owner.

Lemma matches_eq_owner j : Job.matches_eq f j = true -> Job.createdBy j = owner.
Proof.
  unfold Job.matches_eq. rewrite scoped. simpl.
  rewrite !andb_true_iff. intros [[[_ Ho] _] _].
  apply String.eqb_eq in Ho. done.
Qed.

Lemma matches_foreign j : Job.createdBy j <> owner -> Job.matches f j = Value false.
Proof.
  intros Hne. unfold Job.matches.
  destruct (Job.matches_eq f j) eqn:E; [|done].
  apply matches_eq_owner in E. done.
Qed.

Lemma select_own db : Job.select f (Pipeline.match_createdBy owner db) = Job.select f db.
Proof.
  induction db as [|j db IH]; [done|]. simpl.
  destruct (String.eqb_spec owner (Job.createdBy j)) as [E|E]; simpl.
  - by rewrite IH.
  - rewrite IH, matches_foreign by done. unfoldM.
    by destruct (Job.select f db).
Qed.

Lemma select_elem db found j :
  Job.select f db = Value found -> j ∈ found -> j ∈ db /\ Job.createdBy j = owner.
Proof.
  revert found. induction db as [|d db IH]; simpl; intros found H Hin.
  - inversion H; subst. by apply not_elem_of_nil in Hin.
  - unfoldM. destruct (Job.matches f d) as [b| |] eqn:Hm; try done.
    destruct (Job.select f db) as [js| |]; try done.
    inversion H; subst; clear H.
    destruct b.
    + apply elem_of_cons in Hin as [->|Hin].
      * split; [left|].
        unfold Job.matches in Hm. destruct (Job.matches_eq f d) eqn:E; [|done].
        by apply matches_eq_owner.
      * destruct (IH js eq_refl Hin). split; [by right|done].
    + destruct (IH js eq_refl Hin). split; [by right|done].
Qed.

Lemma modify_first_own g db :
  fst <$> Job.modify_first f g (Pipeline.match_createdBy owner db)
  = fst <$> Job.modify_first f g db.
Proof.
  induction db as [|j db IH]; [done|]. simpl.
  destruct (String.eqb_spec owner (Job.createdBy j)) as [E|E]; simpl.
  - unfoldM. destruct (Job.matches f j) as [[|]| |]; try done.
    destruct (Job.modify_first f g (Pipeline.match_createdBy owner db)) as [[o r]| |],
             (Job.modify_first f g db) as [[o' r']| |]; simpl in *; congruence.
  - rewrite matches_foreign by done. unfoldM.
    destruct (Job.modify_first f g (Pipeline.match_createdBy owner db)) as [[o r]| |],
             (Job.modify_first f g db) as [[o' r']| |]; simpl in *; congruence.
Qed.

Lemma modify_first_found g db j db' :
  Job.modify_first f g db = Value (Some j, db') ->
  j ∈ db /\ Job.createdBy j = owner.
Proof.
  revert db'. induction db as [|d db IH]; simpl; intros db' H; [done|].
  unfoldM. destruct (Job.matches f d) as [b| |] eqn:Hm; try done.
  destruct b.
  - injection H as <- _. split; [left|].
    unfold Job.matches in Hm. destruct (Job.matches_eq f d) eqn:E; [|done].
    by apply matches_eq_owner.
  - destruct (Job.modify_first f g db) as [[o' r']| |]; try done.
    injection H as -> _. destruct (IH r' eq_refl). split; [by right|done].
Qed.

Lemma modify_first_foreign g db o db' j :
  Job.modify_first f g db = Value (o, db') ->
  j ∈ db -> Job.createdBy j <> owner -> j ∈ db'.
Proof.
  revert o db'. induction db as [|d db IH]; simpl; intros o db' H Hin Hne.
  - by apply not_elem_of_nil in Hin.
  - unfoldM. destruct (Job.matches f d) as [b| |] eqn:Hm; try done.
    destruct b.
    + inversion H; subst; clear H.
      apply elem_of_cons in Hin as [->|Hin].
      * rewrite matches_foreign in Hm by done. done.
      * apply elem_of_app. by right.
    + destruct (Job.modify_first f g db) as [[o' r']| |]; try done.
      inversion H; subst; clear H.
      apply elem_of_cons in Hin as [->|Hin]; [left|right].
      by eapply IH.
Qed.
End owner_scoping.

(** The [$match] stage keeps the documents of the owner, and only those. *)
Lemma match_createdBy_filter owner db :
  Pipeline.match_createdBy owner db
  = List.filter (fun j => String.eqb (Job.createdBy j) owner) db.
Proof.
  unfold Pipeline.match_createdBy.
  induction db as [|j db IH]; [done|]. simpl.
  by rewrite IH, (String.eqb_sym owner).
Qed.

Lemma mine_cast userId owner db :
  Job.castObjectId userId = Value owner ->
  mine userId db = Pipeline.match_createdBy owner db.
Proof. intros Ho. unfold mine. by rewrite Ho, match_createdBy_filter. Qed.

Lemma cast_scoped userId f f' :
  Filter.createdBy f = Some userId ->
  Job.cast f = Value f' ->
  exists owner, Job.castObjectId userId = Value owner /\ Filter.createdBy f' = Some owner.
Proof.
  unfold Job.cast. intros ->. unfoldM.
  destruct (Job.cast_opt (Filter._id f)); try done. simpl.
  destruct (Job.castObjectId userId) as [owner| |]; try done.
  intros [= <-]. by exists owner.
Qed.

Lemma scan_mine userId f db :
  Filter.createdBy f = Some userId ->
  Job.scan f (mine userId db) = Job.scan f db.
Proof.
  intros Hf. unfold Job.scan. unfoldM.
  destruct (Job.cast f) as [f'| |] eqn:Hc; try done.
  destruct (cast_scoped _ _ _ Hf Hc) as (owner & Ho & Hf').
  rewrite (mine_cast _ _ _ Ho). by apply select_own.
Qed.

Lemma scan_elem userId f db found j :
  Filter.createdBy f = Some userId ->
  Job.scan f db = Value found -> j ∈ found -> j ∈ db /\ owned_by userId j.
Proof.
  intros Hf. unfold Job.scan. unfoldM.
  destruct (Job.cast f) as [f'| |] eqn:Hc; try done.
  destruct (cast_scoped _ _ _ Hf Hc) as (owner & Ho & Hf').
  intros Hs Hin. destruct (select_elem owner f' Hf' db found j Hs Hin) as [? E].
  split; [done|]. unfold owned_by. by rewrite E.
Qed.

Lemma order_Permutation spec docs sorted :
  Job.order spec docs = Value sorted -> sorted ≡ₚ docs.
Proof.
  unfold Job.order.
  repeat (case_match; [intros [= <-]; apply merge_sort_Permutation|]).
  done.
Qed.

Lemma window_elem sk lim docs js j :
  Job.window sk lim docs = Value js -> j ∈ js -> j ∈ docs.
Proof.
  unfold Job.window.
  destruct (default (Js.Num 0) sk) as [|s|]; try done.
  destruct (default (Js.Num 0) lim) as [|l|]; try done.
  repeat case_match; try done; intros [= <-] Hin.
  - by eapply subseteq_drop.
  - eapply subseteq_drop. by eapply subseteq_take.
Qed.

Lemma exec_mine userId q db :
  Filter.createdBy (Job.conditions q) = Some userId ->
  Job.exec q (mine userId db) = Job.exec q db.
Proof. intros Hf. unfold Job.exec. by rewrite scan_mine. Qed.

Lemma exec_elem userId q db js j :
  Filter.createdBy (Job.conditions q) = Some userId ->
  Job.exec q db = Value js -> j ∈ js -> j ∈ db /\ owned_by userId j.
Proof.
  intros Hf. unfold Job.exec. unfoldM.
  destruct (Job.scan (Job.conditions q) db) as [found| |] eqn:Hs; try done.
  destruct (match Job.sort_by q with Some spec => Job.order spec found | None => Value found end)
    as [sorted| |] eqn:Ho; try done.
  intros Hw Hin. apply (window_elem _ _ _ _ _ Hw) in Hin.
  assert (j ∈ found) as Hf'.
  { destruct (Job.sort_by q).
    - apply order_Permutation in Ho. by rewrite <- Ho.
    - by inversion Ho; subst. }
  by eapply scan_elem.
Qed.

Lemma queryObject_createdBy userId q :
  Filter.createdBy (queryObject userId q) = Some userId.
Proof. unfold queryObject. by repeat case_match. Qed.

Lemma sorted_query_conditions s r :
  Job.conditions (sorted_query s r) = Job.conditions r.
Proof. unfold sorted_query. by repeat case_match. Qed.

Lemma fst_committed {A} db (r : M (A * Job.collection)) :
  fst (committed db r) = fst <$> r.
Proof. by destruct r as [[a db']| |]. Qed.

Lemma findOneAndUpdate_mine userId jobId body now db :
  fst <$> Job.findOneAndUpdate (one_of userId jobId) body now (mine userId db)
  = fst <$> Job.findOneAndUpdate (one_of userId jobId) body now db.
Proof.
  unfold Job.findOneAndUpdate. unfoldM.
  destruct (Body.other_keys (Job.settable body) || Job.sets_nothing (Job.settable body));
    try done.
  destruct (Job.cast (one_of userId jobId)) as [f'| |] eqn:Hc; try done.
  destruct (cast_scoped userId (one_of userId jobId) f' eq_refl Hc) as (owner & Ho & Hf').
  destruct (Job.validate_update (Job.settable body)); try done.
  rewrite (mine_cast _ _ _ Ho).
  pose proof (modify_first_own owner f' Hf'
                (fun j => Some (Job.apply_update (Job.settable body) now j)) db) as H.
  unfoldM.
  destruct (Job.modify_first f' _ (Pipeline.match_createdBy owner db)) as [[x r]| |],
           (Job.modify_first f' _ db) as [[x' r']| |]; simpl in *; congruence.
Qed.

Lemma findOneAndDelete_mine userId jobId db :
  fst <$> Job.findOneAndDelete (one_of userId jobId) (mine userId db)
  = fst <$> Job.findOneAndDelete (one_of userId jobId) db.
Proof.
  unfold Job.findOneAndDelete. unfoldM.
  destruct (Job.cast (one_of userId jobId)) as [f'| |] eqn:Hc; try done.
  destruct (cast_scoped userId (one_of userId jobId) f' eq_refl Hc) as (owner & Ho & Hf').
  rewrite (mine_cast _ _ _ Ho).
  apply (modify_first_own owner f' Hf').
Qed.

Lemma findOneAndUpdate_foreign userId jobId body now db o db' j :
  Job.findOneAndUpdate (one_of userId jobId) body now db = Value (o, db') ->
  j ∈ db -> ~ owned_by userId j -> j ∈ db'.
Proof.
  unfold Job.findOneAndUpdate. unfoldM.
  destruct (Body.other_keys (Job.settable body) || Job.sets_nothing (Job.settable body));
    try done.
  destruct (Job.cast (one_of userId jobId)) as [f'| |] eqn:Hc; try done.
  destruct (cast_scoped userId (one_of userId jobId) f' eq_refl Hc) as (owner & Ho & Hf').
  destruct (Job.validate_update (Job.settable body)); try done.
  destruct (Job.modify_first f' _ db) as [[x r]| |] eqn:Hm; try done.
  intros [= <- <-] Hin Hno.
  eapply modify_first_foreign; eauto.
  intros E. apply Hno. unfold owned_by. by rewrite E.
Qed.

Lemma findOneAndUpdate_found userId jobId body now db j' db' :
  Job.findOneAndUpdate (one_of userId jobId) body now db = Value (Some j', db') ->
  exists j, j ∈ db /\ owned_by userId j /\ Job._id j' = Job._id j
            /\ owned_by userId j'.
Proof.
  unfold Job.findOneAndUpdate. unfoldM.
  destruct (Body.other_keys (Job.settable body) || Job.sets_nothing (Job.settable body));
    try done.
  destruct (Job.cast (one_of userId jobId)) as [f'| |] eqn:Hc; try done.
  destruct (cast_scoped userId (one_of userId jobId) f' eq_refl Hc) as (owner & Ho & Hf').
  destruct (Job.validate_update (Job.settable body)); try done.
  destruct (Job.modify_first f' _ db) as [[[j|] r]| |] eqn:Hm; try done.
  intros [= <- <-].
  destruct (modify_first_found owner f' Hf' _ _ _ _ Hm) as [Hin E].
  exists j. split; [done|]. unfold owned_by. simpl. by rewrite E.
Qed.

Lemma findOneAndDelete_foreign userId jobId db o db' j :
  Job.findOneAndDelete (one_of userId jobId) db = Value (o, db') ->
  j ∈ db -> ~ owned_by userId j -> j ∈ db'.
Proof.
  unfold Job.findOneAndDelete. unfoldM.
  destruct (Job.cast (one_of userId jobId)) as [f'| |] eqn:Hc; try done.
  destruct (cast_scoped userId (one_of userId jobId) f' eq_refl Hc) as (owner & Ho & Hf').
  intros Hm Hin Hno.
  eapply modify_first_foreign; eauto.
  intros E. apply Hno. unfold owned_by. by rewrite E.
Qed.

Lemma match_createdBy_idem owner db :
  Pipeline.match_createdBy owner (Pipeline.match_createdBy owner db)
  = Pipeline.match_createdBy owner db.
Proof.
  unfold Pipeline.match_createdBy.
  induction db as [|j db IH]; [done|]. simpl.
  destruct (String.eqb owner (Job.createdBy j)) eqn:E; simpl; rewrite ?E, IH; done.
Qed.

Lemma getAllJobs_mine userId q db :
  getAllJobs userId q (mine userId db) = getAllJobs userId q db.
Proof.
  unfold getAllJobs, Job.countDocuments.
  rewrite exec_mine, scan_mine; [done| |].
  - apply queryObject_createdBy.
  - simpl. rewrite sorted_query_conditions. apply queryObject_createdBy.
Qed.

Lemma getAllJobs_elem userId q db c p j :
  getAllJobs userId q db = Value (c, p) -> j ∈ jobs p -> j ∈ db /\ owned_by userId j.
Proof.
  unfold getAllJobs. unfoldM.
  destruct (Job.exec _ db) as [js| |] eqn:He; try done.
  destruct (Job.countDocuments _ db) as [n| |]; try done.
  destruct (ceil_quot n (limit_of q)) as [k| |]; try done.
  intros [= <- <-]. simpl. eapply exec_elem; [|exact He].
  simpl. rewrite sorted_query_conditions. apply queryObject_createdBy.
Qed.

Lemma getJob_mine userId jobId db :
  getJob userId jobId (mine userId db) = getJob userId jobId db.
Proof. unfold getJob, Job.findOne. by rewrite scan_mine. Qed.

Lemma getJob_elem userId jobId db c j :
  getJob userId jobId db = Value (c, j) -> j ∈ db /\ owned_by userId j.
Proof.
  unfold getJob, Job.findOne. unfoldM.
  destruct (Job.scan _ db) as [[|d found]| |] eqn:Hs; try done.
  simpl. intros [= <- <-]. eapply (scan_elem userId); [|exact Hs|left]. done.
Qed.

Lemma showStats_mine userId now db :
  showStats userId now (mine userId db) = showStats userId now db.
Proof.
  unfold showStats, monthly_pipeline, mine, Job.ObjectId_of. unfoldM.
  destruct (Job.castObjectId userId) as [owner| |]; try done.
  by rewrite <- match_createdBy_filter, match_createdBy_idem.
Qed.

(** C1. Every handler reads and writes the caller's own documents only: the
    filter of the list route carries the caller as [createdBy]; the answers
    of list, read-one, update, delete and stats are the answers computed on
    the caller's documents alone ([mine]: the documents of the collection
    whose createdBy is the caller), so no document of another owner reaches
    them, and the statistics of two collections that hold the same
    documents of the caller are the same; the documents returned by list
    and read-one are documents of the collection owned by the caller, and
    the document returned by update is the new state of one and is owned by
    the caller; create, update
    and delete leave every document of another owner in place; and a
    created document is owned by the caller. *)
Theorem tenant_isolation (userId : string) (db : Job.collection) :
  (forall q,
      Filter.createdBy (queryObject userId q) = Some userId
      /\ getAllJobs userId q db = getAllJobs userId q (mine userId db)
      /\ forall c p j, getAllJobs userId q db = Value (c, p) -> j ∈ jobs p ->
           j ∈ db /\ owned_by userId j)
  /\ (forall jobId,
      getJob userId jobId db = getJob userId jobId (mine userId db)
      /\ forall c j, getJob userId jobId db = Value (c, j) ->
           j ∈ db /\ owned_by userId j)
  /\ (forall jobId body now,
      fst (updateJob userId jobId body now db)
      = fst (updateJob userId jobId body now (mine userId db))
      /\ (forall j, j ∈ db -> ~ owned_by userId j ->
            j ∈ snd (updateJob userId jobId body now db))
      /\ forall c j', fst (updateJob userId jobId body now db) = Value (c, j') ->
           exists j, j ∈ db /\ owned_by userId j /\ Job._id j' = Job._id j
                     /\ owned_by userId j')
  /\ (forall jobId,
      fst (deleteJob userId jobId db) = fst (deleteJob userId jobId (mine userId db))
      /\ forall j, j ∈ db -> ~ owned_by userId j ->
           j ∈ snd (deleteJob userId jobId db))
  /\ (forall location body fresh now,
      (forall j, j ∈ db -> j ∈ snd (createJob location userId body fresh now db))
      /\ forall c j, fst (createJob location userId body fresh now db) = Value (c, j) ->
           owned_by userId j)
  /\ (forall now,
        showStats userId now db = showStats userId now (mine userId db)
        /\ forall db', mine userId db' = mine userId db ->
             showStats userId now db' = showStats userId now db).
Proof.
  repeat split.
  - apply queryObject_createdBy.
  - by rewrite getAllJobs_mine.
  - eapply getAllJobs_elem; eauto.
  - eapply getAllJobs_elem; eauto.
  - by rewrite getJob_mine.
  - eapply getJob_elem; eauto.
  - eapply getJob_elem; eauto.
  - unfold updateJob. rewrite !fst_committed.
    destruct (update_rejected body); [done|].
    pose proof (findOneAndUpdate_mine userId jobId body now db) as H.
    unfold one_of in H. unfoldM.
    destruct (Job.findOneAndUpdate _ body now db) as [[o r]| |],
             (Job.findOneAndUpdate _ body now (mine userId db)) as [[o' r']| |];
      simpl in *; try congruence.
    inversion H; subst. by destruct o.
  - intros j Hin Hno. unfold updateJob.
    destruct (update_rejected body); [done|]. unfoldM.
    destruct (Job.findOneAndUpdate _ body now db) as [[o r]| |] eqn:Hu; try done.
    destruct o; simpl; [|done].
    eapply (findOneAndUpdate_foreign userId jobId); eauto.
  - intros c j'. unfold updateJob.
    destruct (update_rejected body); [done|]. unfoldM.
    destruct (Job.findOneAndUpdate _ body now db) as [[[j0|] r]| |] eqn:Hu; try done.
    simpl. intros [= <- <-].
    eapply (findOneAndUpdate_found userId jobId); eauto.
  - unfold deleteJob. rewrite !fst_committed.
    pose proof (findOneAndDelete_mine userId jobId db) as H.
    unfold one_of in H. unfoldM.
    destruct (Job.findOneAndDelete _ db) as [[o r]| |],
             (Job.findOneAndDelete _ (mine userId db)) as [[o' r']| |];
      simpl in *; try congruence.
    inversion H; subst. by destruct o.
  - intros j Hin Hno. unfold deleteJob. unfoldM.
    destruct (Job.findOneAndDelete _ db) as [[o r]| |] eqn:Hu; try done.
    destruct o; simpl; [|done].
    eapply (findOneAndDelete_foreign userId jobId); eauto.
  - intros j Hin. unfold createJob, Job.create, Job.cast_path. simpl. unfoldM.
    destruct (Body.other_keys body); [done|].
    destruct (Job.castObjectId userId); try done.
    destruct (Job.validate _); simpl; [|done].
    apply elem_of_app. by left.
  - intros c j. unfold createJob, Job.create, Job.cast_path. simpl. unfoldM.
    unfold owned_by.
    destruct (Body.other_keys body); [done|].
    destruct (Job.castObjectId userId); try done.
    destruct (Job.validate _); simpl; [|done].
    by intros [= <- <-].
  - by rewrite showStats_mine.
  - intros db' E. by rewrite <- (showStats_mine userId now db), <- E, showStats_mine.
Qed.

(** Two callers on one collection: the other caller's document is not
    listed, a delete leaves it in place, and it is not counted in the
    statistics (it is the only declined one). *)
Lemma tenant_isolation_shared :
  mine alice shared_db = three_jobs
  /\ (jobs ∘ snd) <$> getAllJobs alice Query.empty shared_db = Value three_jobs
  /\ ~ owned_by alice bobs_job
  /\ bobs_job ∈ snd (deleteJob alice (job_id "1") shared_db)
  /\ (defaultStats ∘ snd) <$> showStats alice (Moment.mk 2024 0 31) shared_db
     = Value {| pending := 2; interview := 1; declined := 0 |}
  /\ Job.status bobs_job = "declined".
Proof.
  destruct (tenant_isolation alice shared_db) as (Hlist & _ & _ & Hdelete & _ & Hstats).
  destruct (Hlist Query.empty) as (_ & -> & _).
  destruct (Hdelete (job_id "1")) as [_ Hkept].
  destruct (Hstats (Moment.mk 2024 0 31)) as [-> _].
  assert (~ owned_by alice bobs_job) as Hforeign.
  { intros H. vm_compute in H. discriminate H. }
  split; [reflexivity|]. split; [reflexivity|]. split; [exact Hforeign|].
  split; [|split; [by vm_compute|reflexivity]].
  apply Hkept; [|exact Hforeign].
  right. left.
Defined.

(** ** Sorting *)

#[global] Instance by_createdAt_trans : Transitive Job.by_createdAt.
Proof. intros a b c. unfold Job.by_createdAt. lia. Qed.
#[global] Instance by_createdAt_total : Total Job.by_createdAt.
Proof. intros a b. unfold Job.by_createdAt. lia. Qed.
#[global] Instance by_position_trans : Transitive Job.by_position.
Proof. intros a b c. unfold Job.by_position. apply transitivity. Qed.
#[global] Instance by_position_total : Total Job.by_position.
Proof. intros a b. unfold Job.by_position. apply total, _. Qed.

#[global] Instance flip_total {A} (R : relation A) `{!Total R} : Total (flip R).
Proof. intros a b. unfold flip. destruct (total R a b); auto. Qed.
#[global] Instance flip_trans {A} (R : relation A) `{!Transitive R} : Transitive (flip R).
Proof. intros a b c. unfold flip. eauto. Qed.

Lemma exec_find f db : Job.exec (Job.find f) db = Job.scan f db.
Proof.
  unfold Job.exec, Job.find. simpl. unfoldM.
  destruct (Job.scan f db); try done.
Qed.

Lemma listing_unsorted userId q db :
  known_sort (Query.sort q) = false ->
  listing userId q db = Job.scan (queryObject userId q) db.
Proof.
  unfold known_sort, listing, sorted_query.
  rewrite !orb_false_iff. intros [[[-> ->] ->] ->].
  apply exec_find.
Qed.

Lemma exec_sorted spec f db found :
  Job.scan f db = Value found ->
  Job.exec (Job.sort spec (Job.find f)) db = Job.order spec found.
Proof.
  intros Hs. unfold Job.exec. simpl. rewrite Hs. unfoldM.
  destruct (Job.order spec found) as [sorted| |]; try done.
Qed.

Lemma listing_cases userId q db found :
  Job.scan (queryObject userId q) db = Value found ->
  listing userId q db =
    Value (if Js.strict_eq (Query.sort q) "z-a" then merge_sort (flip Job.by_position) found
           else if Js.strict_eq (Query.sort q) "a-z" then merge_sort Job.by_position found
           else if Js.strict_eq (Query.sort q) "oldest" then merge_sort Job.by_createdAt found
           else if Js.strict_eq (Query.sort q) "latest" then merge_sort (flip Job.by_createdAt) found
           else found).
Proof.
  intros Hs. unfold listing, sorted_query.
  destruct (Query.sort q) as [s|]; simpl; [|by rewrite exec_find].
  destruct (String.eqb_spec s "z-a") as [->|]; [by rewrite (exec_sorted _ _ _ _ Hs)|].
  destruct (String.eqb_spec s "a-z") as [->|]; [by rewrite (exec_sorted _ _ _ _ Hs)|].
  destruct (String.eqb_spec s "oldest") as [->|]; [by rewrite (exec_sorted _ _ _ _ Hs)|].
  destruct (String.eqb_spec s "latest") as [->|]; [by rewrite (exec_sorted _ _ _ _ Hs)|].
  by rewrite exec_find.
Qed.

Lemma listing_Permutation userId q db found :
  Job.scan (queryObject userId q) db = Value found ->
  exists sorted, listing userId q db = Value sorted /\ sorted ≡ₚ found.
Proof.
  intros Hs. rewrite (listing_cases _ _ _ _ Hs).
  eexists; split; [done|].
  repeat case_match; try apply merge_sort_Permutation; done.
Qed.

(** ** Pagination *)

Lemma sorted_query_window s r :
  Job.skip_n (sorted_query s r) = Job.skip_n r
  /\ Job.limit_n (sorted_query s r) = Job.limit_n r.
Proof. unfold sorted_query. by repeat case_match. Qed.

Lemma window_none docs : Job.window None None docs = Value docs.
Proof. done. Qed.

Lemma exec_paginated sk lim r db :
  Job.skip_n r = None -> Job.limit_n r = None ->
  Job.exec (Job.limit lim (Job.skip sk r)) db
  = sorted ← Job.exec r db; Job.window (Some sk) (Some lim) sorted.
Proof.
  intros Hs Hl. unfold Job.exec. simpl. rewrite Hs, Hl. unfoldM.
  destruct (Job.scan (Job.conditions r) db) as [found| |]; try done.
  destruct (match Job.sort_by r with Some spec => Job.order spec found | None => Value found end)
    as [sorted| |]; done.
Qed.

Lemma exact_bound z n : Js.exact z = Js.Num n -> n = z /\ Z.abs z <= Js.safe_bound.
Proof.
  unfold Js.exact. destruct (Z.leb_spec (Z.abs z) Js.safe_bound); [|done].
  by intros [= <-].
Qed.

Lemma exact_in z : Z.abs z <= Js.safe_bound -> Js.exact z = Js.Num z.
Proof.
  intros H. unfold Js.exact. by destruct (Z.leb_spec (Z.abs z) Js.safe_bound); [|lia].
Qed.

Lemma safe_bound_pos : 10 < Js.safe_bound.
Proof. by vm_compute. Qed.

Lemma to_number_bound v z : Js.to_number v = Js.Num z -> Z.abs z <= Js.safe_bound.
Proof.
  destruct v as [s|]; [|done]. simpl. unfold Js.of_string.
  pose proof safe_bound_pos.
  repeat case_match; try done;
    first [ intros [= <-]; simpl; lia
          | intros H'; by apply exact_bound in H' as [-> ?] ].
Qed.

Lemma or_else_bound v d z :
  Z.abs d <= Js.safe_bound ->
  Js.or_else (Js.to_number v) (Js.Num d) = Js.Num z -> Z.abs z <= Js.safe_bound.
Proof.
  intros Hd. destruct (Js.to_number v) as [|n|] eqn:E; simpl; try done.
  - by intros [= <-].
  - apply to_number_bound in E. destruct n; intros [= <-]; done.
Qed.

Lemma page_of_bound q p : page_of q = Js.Num p -> Z.abs p <= Js.safe_bound.
Proof. pose proof safe_bound_pos. apply or_else_bound. lia. Qed.

Lemma limit_of_bound q l : limit_of q = Js.Num l -> Z.abs l <= Js.safe_bound /\ l <> 0.
Proof.
  pose proof safe_bound_pos. intros H'. split.
  - revert H'. apply or_else_bound. lia.
  - unfold limit_of in H'. destruct (Js.to_number (Query.limit q)) as [|[]|]; simpl in H';
      try done; inversion H'; lia.
Qed.

Lemma skip_of_exact q p l :
  page_of q = Js.Num p -> limit_of q = Js.Num l ->
  1 <= p -> Z.abs ((p - 1) * l) <= Js.safe_bound ->
  skip_of q = Js.Num ((p - 1) * l).
Proof.
  intros Hp Hl Hp1 Hb. unfold skip_of. rewrite Hp, Hl. simpl.
  apply page_of_bound in Hp.
  rewrite exact_in by lia. simpl. by apply exact_in.
Qed.

Lemma ceil_div_spec a b :
  0 < b -> (Js.ceil_div a b - 1) * b < a <= Js.ceil_div a b * b.
Proof.
  intros Hb. unfold Js.ceil_div.
  pose proof (Z.div_mod (- a) b ltac:(lia)).
  pose proof (Z.mod_pos_bound (- a) b Hb). nia.
Qed.

Lemma getAllJobs_window userId q db p l :
  page_of q = Js.Num p -> limit_of q = Js.Num l ->
  1 <= p -> 1 <= l -> (p - 1) * l <= Js.safe_bound ->
  getAllJobs userId q db =
    sorted ← listing userId q db;
    found ← Job.scan (queryObject userId q) db;
    Value (OK, {| jobs := take (Z.to_nat l) (drop (Z.to_nat ((p - 1) * l)) sorted);
                  totalJobs := Z.of_nat (length found);
                  numOfPages := Js.ceil_div (Z.of_nat (length found)) l |}).
Proof.
  intros Hp Hl Hp1 Hl1 Hb. unfold getAllJobs, listing, Job.countDocuments.
  destruct (sorted_query_window (Query.sort q) (Job.find (queryObject userId q))) as [Hs Hn].
  rewrite exec_paginated by done.
  rewrite (skip_of_exact q p l) by (try done; nia).
  rewrite Hl. unfoldM.
  destruct (Job.exec _ db) as [sorted| |]; try done.
  unfold Job.window. simpl.
  destruct (Z.ltb_spec ((p - 1) * l) 0); [nia|].
  destruct (Z.ltb_spec l 0); [lia|].
  destruct (Z.eqb_spec l 0); [lia|].
  destruct (Job.scan _ db) as [found| |]; try done.
Qed.

Lemma or_else_rules v d :
  (v = None -> Js.or_else (Js.to_number v) (Js.Num d) = Js.Num d)
  /\ (Js.to_number v = Js.NaN -> Js.or_else (Js.to_number v) (Js.Num d) = Js.Num d)
  /\ (Js.to_number v = Js.Num 0 -> Js.or_else (Js.to_number v) (Js.Num d) = Js.Num d)
  /\ (forall z, z <> 0 -> Js.to_number v = Js.Num z ->
        Js.or_else (Js.to_number v) (Js.Num d) = Js.Num z).
Proof.
  repeat split.
  - by intros ->.
  - by intros ->.
  - by intros ->.
  - intros z Hz ->. by destruct z.
Qed.

(** What an answered list request returns: a window of the sorted
    selection, with the size of the selection. *)
Lemma getAllJobs_answered userId q db c page :
  getAllJobs userId q db = Value (c, page) ->
  exists found sorted s l,
    Job.scan (queryObject userId q) db = Value found
    /\ listing userId q db = Value sorted
    /\ skip_of q = Js.Num s /\ limit_of q = Js.Num l /\ 0 <= s /\ 1 <= l
    /\ c = OK
    /\ jobs page = take (Z.to_nat l) (drop (Z.to_nat s) sorted)
    /\ totalJobs page = Z.of_nat (length found)
    /\ numOfPages page = Js.ceil_div (Z.of_nat (length found)) l.
Proof.
  unfold getAllJobs, listing, Job.countDocuments, ceil_quot.
  destruct (sorted_query_window (Query.sort q) (Job.find (queryObject userId q))) as [Hs Hn].
  rewrite exec_paginated by done. unfoldM.
  destruct (Job.exec _ db) as [sorted| |]; try done.
  unfold Job.window. simpl.
  destruct (skip_of q) as [|s|]; try done.
  destruct (limit_of q) as [|l|] eqn:Hl; try done.
  destruct (Z.ltb_spec s 0); [done|].
  destruct (Z.ltb_spec l 0); [done|].
  apply limit_of_bound in Hl as [_ Hl0].
  destruct (Z.eqb_spec l 0); [done|].
  destruct (Job.scan _ db) as [found| |]; try done. simpl.
  intros [= <- <-]. exists found, sorted, s, l.
  repeat split; try done; lia.
Qed.

Lemma StronglySorted_window {A} (R : relation A) n m (l : list A) :
  StronglySorted R l -> StronglySorted R (take n (drop m l)).
Proof.
  intros H.
  rewrite <- (take_drop m l) in H. apply StronglySorted_app_1_r in H.
  rewrite <- (take_drop n (drop m l)) in H. by apply StronglySorted_app_1_l in H.
Qed.

(** ** Sorting, as answered *)

(** C8. The jobs an answered list request returns are a window (skip, then
    limit) of the selected documents rearranged by the sort parameter:
    latest by createdAt descending, oldest by createdAt ascending, a-z by
    position ascending, z-a by position descending, so the jobs returned
    are in that order themselves; for any other value, or none, the
    selected documents stay in the store's natural order.  On the positions
    Engineer, Analyst, Director, z-a answers Engineer, Director, Analyst. *)
Theorem getAllJobs_sort_order :
  (forall userId q db c page,
      getAllJobs userId q db = Value (c, page) ->
      exists found sorted s l,
        Job.scan (queryObject userId q) db = Value found
        /\ sorted ≡ₚ found
        /\ (Query.sort q = Some "latest" -> StronglySorted newest_first sorted)
        /\ (Query.sort q = Some "oldest" -> StronglySorted oldest_first sorted)
        /\ (Query.sort q = Some "a-z" -> StronglySorted a_to_z sorted)
        /\ (Query.sort q = Some "z-a" -> StronglySorted z_to_a sorted)
        /\ (known_sort (Query.sort q) = false -> sorted = found)
        /\ skip_of q = Js.Num s /\ limit_of q = Js.Num l /\ 0 <= s /\ 1 <= l
        /\ jobs page = take (Z.to_nat l) (drop (Z.to_nat s) sorted)
        /\ (Query.sort q = Some "latest" -> StronglySorted newest_first (jobs page))
        /\ (Query.sort q = Some "oldest" -> StronglySorted oldest_first (jobs page))
        /\ (Query.sort q = Some "a-z" -> StronglySorted a_to_z (jobs page))
        /\ (Query.sort q = Some "z-a" -> StronglySorted z_to_a (jobs page)))
  /\ map Job.position three_jobs = ["Engineer"; "Analyst"; "Director"]
  /\ (map Job.position ∘ jobs ∘ snd)
       <$> getAllJobs alice (Query.mk None None None (Some "z-a") None None) three_jobs
     = Value ["Engineer"; "Director"; "Analyst"].
Proof.
  split; [|by vm_compute].
  intros userId q db c page Ha.
  destruct (getAllJobs_answered _ _ _ _ _ Ha)
    as (found & sorted & s & l & Hs & Hlist & Hsk & Hl & Hs0 & Hl1 & _ & Hj & _).
  rewrite (listing_cases _ _ _ _ Hs) in Hlist. injection Hlist as Hsorted.
  assert (Query.sort q = Some "latest" -> StronglySorted newest_first sorted) as H1.
  { intros E. rewrite E in Hsorted. simpl in Hsorted. subst sorted.
    apply (StronglySorted_merge_sort (flip Job.by_createdAt)). }
  assert (Query.sort q = Some "oldest" -> StronglySorted oldest_first sorted) as H2.
  { intros E. rewrite E in Hsorted. simpl in Hsorted. subst sorted.
    apply (StronglySorted_merge_sort Job.by_createdAt). }
  assert (Query.sort q = Some "a-z" -> StronglySorted a_to_z sorted) as H3.
  { intros E. rewrite E in Hsorted. simpl in Hsorted. subst sorted.
    apply (StronglySorted_merge_sort Job.by_position). }
  assert (Query.sort q = Some "z-a" -> StronglySorted z_to_a sorted) as H4.
  { intros E. rewrite E in Hsorted. simpl in Hsorted. subst sorted.
    apply (StronglySorted_merge_sort (flip Job.by_position)). }
  exists found, sorted, s, l.
  split; [done|]. split.
  { subst sorted. repeat case_match; try apply merge_sort_Permutation; done. }
  do 4 (split; [done|]). split.
  { unfold known_sort. rewrite !orb_false_iff. intros [[[E1 E2] E3] E4].
    by rewrite E1, E2, E3, E4 in Hsorted. }
  do 5 (split; [done|]).
  rewrite Hj. repeat split; intros E; apply StronglySorted_window; auto.
Qed.

(** The newest first, two to a page, on a collection shared with another
    caller; the first two documents in natural order are not in that
    order. *)
Lemma getAllJobs_sort_order_latest :
  getAllJobs alice (Query.mk None None None (Some "latest") None (Some "2")) shared_db
  = Value (OK, {| jobs := [analyst; director]; totalJobs := 3; numOfPages := 2 |})
  /\ StronglySorted newest_first [analyst; director]
  /\ ~ StronglySorted newest_first (take 2 three_jobs).
Proof.
  assert (getAllJobs alice (Query.mk None None None (Some "latest") None (Some "2"))
            shared_db
          = Value (OK, {| jobs := [analyst; director]; totalJobs := 3;
                          numOfPages := 2 |})) as Ha by (by vm_compute).
  destruct getAllJobs_sort_order as [H _].
  destruct (H _ _ _ _ _ Ha) as (found & sorted & s & l & _ & _ & _ & _ & _ & _ & _
                                & _ & _ & _ & _ & _ & Hnew & _).
  split; [exact Ha|]. split; [exact (Hnew eq_refl)|].
  intros Hs. apply StronglySorted_inv in Hs as [_ Hs].
  apply Forall_inv in Hs. vm_compute in Hs. by apply Hs.
Defined.

(** C4 (amended). page is the integer the page parameter denotes, and 1
    when the parameter is absent, not numeric or zero; limit likewise with
    default 10 (a negative value is kept as parsed).  When page and limit
    are positive, jobs is what the route selects, sorted, after skipping
    (page - 1) * limit documents and keeping at most limit; totalJobs is the
    number of documents selected by the same filter, and numOfPages is the
    ceiling of totalJobs / limit. *)
Theorem getAllJobs_paginates (userId : string) (q : Query.t) (db : Job.collection) :
  ((Query.page q = None -> page_of q = Js.Num 1)
   /\ (Js.to_number (Query.page q) = Js.NaN -> page_of q = Js.Num 1)
   /\ (Js.to_number (Query.page q) = Js.Num 0 -> page_of q = Js.Num 1)
   /\ (forall z, z <> 0 -> Js.to_number (Query.page q) = Js.Num z -> page_of q = Js.Num z))
  /\ ((Query.limit q = None -> limit_of q = Js.Num 10)
      /\ (Js.to_number (Query.limit q) = Js.NaN -> limit_of q = Js.Num 10)
      /\ (Js.to_number (Query.limit q) = Js.Num 0 -> limit_of q = Js.Num 10)
      /\ (forall z, z <> 0 -> Js.to_number (Query.limit q) = Js.Num z -> limit_of q = Js.Num z))
  /\ (forall p l,
        page_of q = Js.Num p -> limit_of q = Js.Num l ->
        1 <= p -> 1 <= l -> (p - 1) * l <= Js.safe_bound ->
        getAllJobs userId q db =
          (sorted ← listing userId q db;
           found ← Job.scan (queryObject userId q) db;
           Value (OK, {| jobs := take (Z.to_nat l) (drop (Z.to_nat ((p - 1) * l)) sorted);
                         totalJobs := Z.of_nat (length found);
                         numOfPages := Js.ceil_div (Z.of_nat (length found)) l |}))
        /\ forall total,
             (Js.ceil_div total l - 1) * l < total <= Js.ceil_div total l * l).
Proof.
  split; [apply or_else_rules|]. split; [apply or_else_rules|].
  intros p l Hp Hl Hp1 Hl1 Hb. split.
  - by apply getAllJobs_window.
  - intros total. apply ceil_div_spec. lia.
Qed.

(** Page 2 of 5 on twelve documents: documents 6 to 10, three pages. *)
Lemma getAllJobs_paginates_page2 :
  getAllJobs alice (Query.mk None None None None (Some "2") (Some "5")) twelve_jobs
  = Value (OK, {| jobs := take 5 (drop 5 twelve_jobs); totalJobs := 12; numOfPages := 3 |}).
Proof.
  destruct (getAllJobs_paginates alice
              (Query.mk None None None None (Some "2") (Some "5")) twelve_jobs)
    as (_ & _ & H).
  destruct (H 2 5) as [-> _]; try reflexivity; try lia; by vm_compute.
Defined.

(** C4, as stated, fails on a negative page: it is kept, the skip is
    negative and the store rejects the query. *)
Lemma getAllJobs_negative_page :
  let q := Query.mk None None None None (Some "-3") None in
  page_of q = Js.Num (-3)
  /\ skip_of q = Js.Num (-40)
  /\ getAllJobs alice q three_jobs = Raise MongoServerError.
Proof. by vm_compute. Qed.

(** C10. When the skip (page - 1) * limit is at least the number of
    documents the filter selects, the list route still answers 200 with an
    empty jobs array; totalJobs is the size of the whole selection and
    numOfPages is the number of pages of that size that hold it: the least
    n with n * limit >= totalJobs. *)
Theorem getAllJobs_beyond_last_page
    (userId : string) (q : Query.t) (db : Job.collection)
    (p l : Z) (found : list Job.t) :
  page_of q = Js.Num p -> limit_of q = Js.Num l ->
  1 <= l -> (p - 1) * l <= Js.safe_bound ->
  Job.scan (queryObject userId q) db = Value found ->
  Z.of_nat (length found) <= (p - 1) * l ->
  exists n,
    getAllJobs userId q db
    = Value (OK, {| jobs := [];
                    totalJobs := Z.of_nat (length found);
                    numOfPages := n |})
    /\ (n - 1) * l < Z.of_nat (length found) <= n * l
    /\ forall m, Z.of_nat (length found) <= m * l -> n <= m.
Proof.
  intros Hp Hl Hl1 Hb Hs Hlen.
  assert (1 <= p) as Hp1 by nia.
  rewrite (getAllJobs_window userId q db p l) by done.
  destruct (listing_Permutation _ _ _ _ Hs) as (sorted & -> & Hperm).
  rewrite Hs. simpl. unfoldM.
  exists (Js.ceil_div (Z.of_nat (length found)) l).
  pose proof (ceil_div_spec (Z.of_nat (length found)) l ltac:(lia)) as Hc.
  split; [|split; [exact Hc|intros m Hm; nia]].
  rewrite drop_ge; [by rewrite take_nil|].
  rewrite Hperm. lia.
Qed.

(** Page 4 of 5 on twelve documents: no job, twelve in all, three pages. *)
Lemma getAllJobs_beyond_last_page_twelve :
  getAllJobs alice (Query.mk None None None None (Some "4") (Some "5")) twelve_jobs
  = Value (OK, {| jobs := []; totalJobs := 12; numOfPages := 3 |}).
Proof.
  destruct (getAllJobs_beyond_last_page alice
              (Query.mk None None None None (Some "4") (Some "5")) twelve_jobs
              4 5 twelve_jobs)
    as (n & Ha & Hn & _);
    [reflexivity|reflexivity|lia|by vm_compute|by vm_compute|by vm_compute|].
  rewrite Ha. change (Z.of_nat (length twelve_jobs)) with 12 in *.
  assert (n = 3) as -> by lia. reflexivity.
Defined.

(** ** The status and jobType filters *)

Lemma queryObject_status userId q :
  Filter.status (queryObject userId q)
  = if Js.truthy (Query.status q) && negb (Js.strict_eq (Query.status q) "all")
    then Query.status q else None.
Proof. unfold queryObject. by repeat case_match. Qed.

Lemma queryObject_jobType userId q :
  Filter.jobType (queryObject userId q)
  = if Js.truthy (Query.jobType q) && negb (Js.strict_eq (Query.jobType q) "all")
    then Query.jobType q else None.
Proof. unfold queryObject. by repeat case_match. Qed.

Lemma sentinel_iff (v : option string) s :
  (if Js.truthy v && negb (Js.strict_eq v "all") then v else None) = Some s
  <-> v = Some s /\ s <> "" /\ s <> "all".
Proof.
  destruct v as [x|]; simpl.
  - destruct (String.eqb_spec x ""), (String.eqb_spec x "all"); simpl;
      (split; [intros H; inversion H; subst | intros (H & ? & ?); inversion H; subst]);
      try done; congruence.
  - split; [done|]. by intros [? _].
Qed.

Lemma select_status f db found j s :
  Filter.status f = Some s -> Job.select f db = Value found -> j ∈ found -> Job.status j = s.
Proof.
  intros Hf. revert found. induction db as [|d db IH]; simpl; intros found H Hin.
  - inversion H; subst. by apply not_elem_of_nil in Hin.
  - unfoldM. destruct (Job.matches f d) as [b| |] eqn:Hm; try done.
    destruct (Job.select f db) as [js| |]; try done.
    inversion H; subst; clear H.
    destruct b; [apply elem_of_cons in Hin as [->|Hin]|]; eauto.
    unfold Job.matches in Hm. destruct (Job.matches_eq f d) eqn:E; [|done].
    unfold Job.matches_eq in E. rewrite Hf in E. simpl in E.
    rewrite !andb_true_iff in E. destruct E as [[_ E] _].
    by apply String.eqb_eq in E.
Qed.

Lemma select_jobType f db found j s :
  Filter.jobType f = Some s -> Job.select f db = Value found -> j ∈ found -> Job.jobType j = s.
Proof.
  intros Hf. revert found. induction db as [|d db IH]; simpl; intros found H Hin.
  - inversion H; subst. by apply not_elem_of_nil in Hin.
  - unfoldM. destruct (Job.matches f d) as [b| |] eqn:Hm; try done.
    destruct (Job.select f db) as [js| |]; try done.
    inversion H; subst; clear H.
    destruct b; [apply elem_of_cons in Hin as [->|Hin]|]; eauto.
    unfold Job.matches in Hm. destruct (Job.matches_eq f d) eqn:E; [|done].
    unfold Job.matches_eq in E. rewrite Hf in E. simpl in E.
    rewrite !andb_true_iff in E. destruct E as [_ E].
    by apply String.eqb_eq in E.
Qed.

Lemma cast_keeps f f' :
  Job.cast f = Value f' ->
  Filter.status f' = Filter.status f /\ Filter.jobType f' = Filter.jobType f
  /\ Filter.position f' = Filter.position f.
Proof.
  unfold Job.cast. unfoldM.
  destruct (Job.cast_opt (Filter._id f)); try done.
  destruct (Job.cast_opt (Filter.createdBy f)); try done.
  by intros [= <-].
Qed.

(** C7 (amended). The list route adds an equality condition on status
    exactly when the status parameter is present, not empty and not the
    sentinel all, and then every selected document has that status;
    likewise for jobType; and the answer for status all is the answer for
    no status parameter. *)
Theorem getAllJobs_status_filter (userId : string) (q : Query.t) (db : Job.collection) :
  (forall s, Filter.status (queryObject userId q) = Some s
             <-> Query.status q = Some s /\ s <> "" /\ s <> "all")
  /\ (forall s, Filter.jobType (queryObject userId q) = Some s
                <-> Query.jobType q = Some s /\ s <> "" /\ s <> "all")
  /\ (forall s found j,
        Job.scan (queryObject userId q) db = Value found -> j ∈ found ->
        (Filter.status (queryObject userId q) = Some s -> Job.status j = s)
        /\ (Filter.jobType (queryObject userId q) = Some s -> Job.jobType j = s))
  /\ getAllJobs userId (Query.with_status (Some "all") q) db
     = getAllJobs userId (Query.with_status None q) db
  /\ getAllJobs userId (Query.with_jobType (Some "all") q) db
     = getAllJobs userId (Query.with_jobType None q) db.
Proof.
  split; [|split; [|split; [|split]]].
  - intros s. rewrite queryObject_status. apply sentinel_iff.
  - intros s. rewrite queryObject_jobType. apply sentinel_iff.
  - intros s found j. unfold Job.scan. unfoldM.
    destruct (Job.cast _) as [f'| |] eqn:Hc; try done.
    destruct (cast_keeps _ _ Hc) as (Hs & Ht & _).
    intros Hsel Hin. split; intros Hf.
    + eapply select_status; [|exact Hsel|exact Hin]. by rewrite Hs.
    + eapply select_jobType; [|exact Hsel|exact Hin]. by rewrite Ht.
  - done.
  - done.
Qed.

(** C7, as stated, fails on an empty status parameter: it is present and is
    not all, yet no condition is added and every document of the caller is
    listed. *)
Lemma getAllJobs_empty_status :
  let q := Query.with_status (Some "") Query.empty in
  Query.status q = Some ""
  /\ Filter.status (queryObject alice q) = None
  /\ (jobs ∘ snd) <$> getAllJobs alice q three_jobs = Value three_jobs
  /\ Forall (fun j => Job.status j <> "") three_jobs.
Proof.
  repeat split.
  repeat constructor; done.
Qed.

(** ** Grouping *)

Section grouping.
Context {K : Type} `{EqDecision K}.
Implicit Types (k : K) (gs : list (K * nat)).

Lemma elem_of_bump_keys k k' gs :
  k' ∈ (Pipeline.bump k gs).*1 <-> k' = k \/ k' ∈ gs.*1.
Proof.
  induction gs as [|[k0 n] gs IH]; simpl.
  - rewrite list_elem_of_singleton, elem_of_nil. tauto.
  - destruct (decide (k = k0)) as [->|Hne]; simpl.
    + rewrite !elem_of_cons. tauto.
    + rewrite !elem_of_cons, IH. tauto.
Qed.

Lemma bump_well_grouped k gs : well_grouped gs -> well_grouped (Pipeline.bump k gs).
Proof.
  intros [Hnd Hpos]. induction gs as [|[k0 n] gs IH]; simpl.
  - split; [apply NoDup_singleton|]. repeat constructor.
  - apply NoDup_cons in Hnd as [Hk0 Hnd]. apply Forall_cons in Hpos as [Hn Hpos].
    destruct (decide (k = k0)) as [->|Hne]; simpl.
    + split; [by apply NoDup_cons|]. constructor; [simpl in *; lia|done].
    + destruct (IH Hnd Hpos) as [IH1 IH2].
      split; [|by constructor].
      apply NoDup_cons. split; [|done].
      intros Hin. apply elem_of_bump_keys in Hin as [E|?]; [simpl in E; congruence|done].
Qed.

Lemma count_of_bump k k' gs :
  count_of k' (Pipeline.bump k gs)
  = if decide (k' = k) then S (count_of k' gs) else count_of k' gs.
Proof.
  induction gs as [|[k0 n] gs IH]; simpl.
  - by destruct (decide (k' = k)).
  - destruct (decide (k = k0)) as [->|Hne]; simpl.
    + by destruct (decide (k' = k0)).
    + rewrite IH. destruct (decide (k' = k0)) as [->|]; [|done].
      by destruct (decide (k0 = k)) as [->|].
Qed.

Lemma count_of_absent k gs : k ∉ gs.*1 -> count_of k gs = 0%nat.
Proof.
  induction gs as [|[k0 n] gs IH]; simpl; [done|].
  rewrite not_elem_of_cons. intros [Hne Hnin].
  destruct (decide (k = k0)); [done|]. by apply IH.
Qed.

Lemma count_of_elem k n gs : NoDup gs.*1 -> (k, n) ∈ gs -> count_of k gs = n.
Proof.
  induction gs as [|[k0 n0] gs IH]; simpl; intros Hnd Hin.
  - by apply elem_of_nil in Hin.
  - apply NoDup_cons in Hnd as [Hk0 Hnd].
    apply elem_of_cons in Hin as [[= -> ->]|Hin].
    + by destruct (decide (k0 = k0)).
    + destruct (decide (k = k0)) as [->|]; [|by apply IH].
      destruct Hk0. apply list_elem_of_fmap. by exists (k0, n).
Qed.

Lemma count_of_present k gs :
  well_grouped gs -> k ∈ gs.*1 -> (k, count_of k gs) ∈ gs /\ (0 < count_of k gs)%nat.
Proof.
  intros [Hnd Hpos] Hin.
  apply list_elem_of_fmap in Hin as ([k' n] & -> & Hin). simpl.
  rewrite (count_of_elem k' n gs Hnd Hin). split; [done|].
  rewrite Forall_forall in Hpos. by apply (Hpos (k', n)).
Qed.

Variable key : Job.t -> K.

Lemma tally_cons k d docs :
  tally key k (d :: docs)
  = if decide (key d = k) then S (tally key k docs) else tally key k docs.
Proof.
  unfold tally. simpl. unfold bool_decide.
  by destruct (decide_rel eq (key d) k), (decide (key d = k)).
Qed.

Lemma foldl_bump acc docs :
  well_grouped acc ->
  well_grouped (foldl (fun gs d => Pipeline.bump (key d) gs) acc docs)
  /\ forall k,
       count_of k (foldl (fun gs d => Pipeline.bump (key d) gs) acc docs)
       = (count_of k acc + tally key k docs)%nat.
Proof.
  revert acc. induction docs as [|d docs IH]; simpl; intros acc Hacc.
  - split; [done|]. intros k. unfold tally. simpl. lia.
  - destruct (IH (Pipeline.bump (key d) acc) (bump_well_grouped _ _ Hacc)) as [Hw Hc].
    split; [done|]. intros k. rewrite Hc, count_of_bump, tally_cons.
    destruct (decide (k = key d)) as [E|E], (decide (key d = k)) as [E'|E'];
      try congruence; lia.
Qed.

Lemma group_count_spec docs :
  well_grouped (Pipeline.group_count key docs)
  /\ forall k, count_of k (Pipeline.group_count key docs) = tally key k docs.
Proof.
  destruct (foldl_bump [] docs) as [Hw Hc].
  - split; [constructor|constructor].
  - split; [done|]. intros k. by rewrite Hc.
Qed.

Lemma group_count_elem docs k n :
  (k, n) ∈ Pipeline.group_count key docs -> n = tally key k docs /\ (0 < n)%nat.
Proof.
  destruct (group_count_spec docs) as [[Hnd Hpos] Hc]. intros Hin.
  rewrite <- Hc, (count_of_elem k n _ Hnd Hin). split; [done|].
  rewrite Forall_forall in Hpos. by apply (Hpos (k, n)).
Qed.

Lemma group_count_key docs d :
  d ∈ docs -> key d ∈ (Pipeline.group_count key docs).*1.
Proof.
  intros Hin. destruct (group_count_spec docs) as [_ Hc].
  destruct (decide (key d ∈ (Pipeline.group_count key docs).*1)) as [|Hn]; [done|].
  apply count_of_absent in Hn. rewrite Hc in Hn. exfalso.
  clear Hc. induction docs as [|d0 docs IH]; [by apply elem_of_nil in Hin|].
  rewrite tally_cons in Hn. destruct (decide (key d0 = key d)); [done|].
  apply elem_of_cons in Hin as [->|Hin]; [done|]. by apply IH.
Qed.
End grouping.

(** ** The status summary *)

Lemma stats_object_lookup (gs : list (string * nat)) (acc : gmap string nat) k :
  NoDup gs.*1 ->
  foldl (fun acc curr => let '(title, count) := curr in <[title := count]> acc) acc gs !! k
  = if decide (k ∈ gs.*1) then Some (count_of k gs) else acc !! k.
Proof.
  revert acc. induction gs as [|[k0 n] gs IH]; intros acc Hnd.
  - cbn [foldl]. rewrite decide_False; [done|]. rewrite fmap_nil. apply not_elem_of_nil.
  - rewrite fmap_cons in Hnd |- *. cbn [fst] in *.
    apply NoDup_cons in Hnd as [Hk0 Hnd]. cbn [foldl count_of]. rewrite IH by done.
    destruct (decide (k = k0)) as [->|Hne].
    + rewrite (decide_False (P := k0 ∈ gs.*1)) by done.
      rewrite (decide_True (P := k0 ∈ k0 :: gs.*1)) by left.
      by rewrite lookup_insert_eq.
    + destruct (decide (k ∈ gs.*1)).
      * by rewrite decide_True by (by right).
      * rewrite decide_False by (by rewrite not_elem_of_cons).
        by rewrite lookup_insert_ne.
Qed.

Lemma stats_object_count (gs : list (string * nat)) k :
  NoDup gs.*1 -> or_zero (stats_object gs !! k) = count_of k gs.
Proof.
  intros Hnd. unfold stats_object. rewrite stats_object_lookup by done.
  destruct (decide (k ∈ gs.*1)) as [|Hn]; [done|].
  by rewrite lookup_empty, count_of_absent.
Qed.

Lemma tally_status owner s db :
  tally Job.status s (Pipeline.match_createdBy owner db) = count_status owner s db.
Proof.
  unfold tally, count_status, Pipeline.match_createdBy.
  induction db as [|j db IH]; [done|]. cbn [List.filter].
  rewrite (String.eqb_sym (Job.createdBy j) owner).
  destruct (String.eqb owner (Job.createdBy j)); cbn [andb List.filter]; [|exact IH].
  destruct (decide (Job.status j = s)) as [E|E].
  - rewrite bool_decide_eq_true_2 by done.
    apply String.eqb_eq in E. rewrite E. cbn [length]. by rewrite IH.
  - rewrite bool_decide_eq_false_2 by done.
    apply String.eqb_neq in E. by rewrite E.
Qed.

Lemma count_status_sum owner db :
  (count_status owner "pending" db + count_status owner "interview" db
   + count_status owner "declined" db <= count_owned owner db)%nat.
Proof.
  unfold count_status, count_owned.
  induction db as [|j db IH]; simpl; [lia|].
  destruct (String.eqb (Job.createdBy j) owner); simpl; [|done].
  destruct (String.eqb_spec (Job.status j) "pending") as [E1|E1],
           (String.eqb_spec (Job.status j) "interview") as [E2|E2],
           (String.eqb_spec (Job.status j) "declined") as [E3|E3];
    simpl; try lia; congruence.
Qed.

(** C5. defaultStats has the three fields pending, interview and declined,
    each the number of the caller's documents with exactly that status (0
    when there is none); documents with another status are not counted, so
    the three add up to at most the number of the caller's documents. *)
Theorem showStats_defaultStats (userId : string) (now : Moment.t) (db : Job.collection) :
  (defaultStats ∘ snd) <$> showStats userId now db
  = (fun owner => {| pending := count_status owner "pending" db;
                     interview := count_status owner "interview" db;
                     declined := count_status owner "declined" db |})
      <$> Job.ObjectId_of userId
  /\ forall owner,
       (count_status owner "pending" db + count_status owner "interview" db
        + count_status owner "declined" db <= count_owned owner db)%nat.
Proof.
  split; [|intros owner; apply count_status_sum].
  unfold showStats, Job.ObjectId_of. unfoldM.
  destruct (Job.castObjectId userId) as [owner| |]; try done. simpl.
  destruct (group_count_spec Job.status (Pipeline.match_createdBy owner db)) as [[Hnd _] Hc].
  rewrite !stats_object_count, !Hc, !tally_status by done. done.
Qed.

(** ** The monthly series *)

Lemma civil_month_range day :
  1 <= snd (fst (MongoDate.civil day)) <= 12.
Proof.
  unfold MongoDate.civil. cbn [fst snd].
  set (z := day + 719468).
  set (doe := z - z / 146097 * 146097).
  assert (0 <= doe <= 146096) as Hdoe.
  { subst doe. pose proof (Z.div_mod z 146097 ltac:(lia)).
    pose proof (Z.mod_pos_bound z 146097 ltac:(lia)). lia. }
  clearbody doe. clear z.
  set (yoe := (doe - doe / 1460 + doe / 36524 - doe / 146096) / 365).
  set (doy := doe - (365 * yoe + yoe / 4 - yoe / 100)).
  assert (0 <= doy <= 365) as Hdoy.
  { subst doy yoe. Z.div_mod_to_equations. lia. }
  clearbody doy. clear yoe.
  assert (0 <= (5 * doy + 2) / 153 <= 11) as Hmp.
  { Z.div_mod_to_equations. lia. }
  destruct (Z.ltb_spec ((5 * doy + 2) / 153) 10); lia.
Qed.

Lemma month_range ms : 1 <= MongoDate.month ms <= 12.
Proof. apply civil_month_range. Qed.

Lemma daysInMonth_in_year year month :
  0 <= month <= 11 -> month <> 1 ->
  Moment.daysInMonth year month = 31 - Z.rem (Z.rem month 7) 2.
Proof.
  intros Hm Hne. unfold Moment.daysInMonth.
  rewrite Z.mod_small by lia.
  destruct (Z.eqb_spec month 1); [lia|done].
Qed.

Lemma daysInMonth_feb year :
  Moment.daysInMonth year 1 = if Moment.isLeapYear year then 29 else 28.
Proof.
  unfold Moment.daysInMonth. change (1 mod 12) with 1. change ((1 - 1) / 12) with 0.
  by rewrite Z.add_0_r.
Qed.

Lemma make_date_valid year month day :
  0 <= month <= 11 -> day <= Moment.daysInMonth year month ->
  Moment.make_date year month day = Moment.mk year month day.
Proof.
  intros Hm Hd. unfold Moment.make_date.
  rewrite Z.div_small, Z.mod_small, Z.add_0_r by lia.
  by destruct (Z.leb_spec day (Moment.daysInMonth year month)); [|lia].
Qed.

(** Setting the month, then the year, of any date of the calendar gives a
    date in that month of that year. *)
Lemma set_month_year now month year :
  Moment.valid now -> 1 <= month <= 12 ->
  exists day,
    Moment.year year (Moment.month (month - 1) now) = Moment.mk year (month - 1) day.
Proof.
  intros [Hmon Hday] Hm.
  unfold Moment.month.
  rewrite make_date_valid by lia.
  unfold Moment.year. cbn [Moment.y Moment.mon Moment.d].
  set (day := Z.min (Moment.d now) (Moment.daysInMonth (Moment.y now) (month - 1))).
  assert (day <= Moment.daysInMonth (Moment.y now) (month - 1)) as Hle by lia.
  destruct (Moment.isLeapYear (Moment.y now) && (month - 1 =? 1) && (day =? 29)) eqn:E.
  - eexists. apply make_date_valid; lia.
  - exists day. apply make_date_valid; [lia|].
    destruct (Z.eq_dec (month - 1) 1) as [E1|E1].
    + rewrite E1 in *. rewrite daysInMonth_feb in *.
      change (1 =? 1) with true in E. rewrite andb_true_r in E.
      destruct (Moment.isLeapYear (Moment.y now)); simpl in E.
      * apply Z.eqb_neq in E. destruct (Moment.isLeapYear year); lia.
      * destruct (Moment.isLeapYear year); lia.
    + rewrite daysInMonth_in_year in * by lia. done.
Qed.

Lemma relabel_label now year month count :
  Moment.valid now -> 1 <= month <= 12 ->
  relabel now ((year, month), count)
  = {| date := month_label month year; count := count |}.
Proof.
  intros Hv Hm. unfold relabel, month_label.
  destruct (set_month_year now month year Hv Hm) as [day ->]. done.
Qed.

#[global] Instance newer_first_trans : Transitive Pipeline.newer_first.
Proof.
  intros a b c. unfold Pipeline.newer_first, Pipeline.ym_le. lia.
Qed.
#[global] Instance newer_first_total : Total Pipeline.newer_first.
Proof.
  intros a b. unfold Pipeline.newer_first, Pipeline.ym_le. lia.
Qed.

Lemma newer_first_strict (a b : (Z * Z) * nat) :
  Pipeline.newer_first a b -> a.1 <> b.1 -> older b a.
Proof.
  unfold Pipeline.newer_first, older, Pipeline.ym_le, Pipeline.ym_lt.
  destruct a as [[ya ma] ca], b as [[yb mb] cb]. simpl.
  intros H Hne.
  destruct H as [H|[H1 H2]]; [by left|]. right. split; [done|].
  destruct (Z.eq_dec mb ma); [|lia]. destruct Hne. congruence.
Qed.

Lemma StronglySorted_strict (gs : list ((Z * Z) * nat)) :
  NoDup gs.*1 -> StronglySorted Pipeline.newer_first gs ->
  StronglySorted (flip older) gs.
Proof.
  intros Hnd Hs. induction Hs as [|g gs Hs IH Hall]; [constructor|].
  rewrite fmap_cons in Hnd. apply NoDup_cons in Hnd as [Hg Hnd].
  constructor; [by apply IH|].
  rewrite Forall_forall in Hall |- *. intros g' Hin.
  apply newer_first_strict; [by apply Hall|].
  intros E. apply Hg. rewrite E. by apply list_elem_of_fmap_2.
Qed.

Lemma StronglySorted_reverse {A} (R : relation A) l :
  StronglySorted R l -> StronglySorted (flip R) (reverse l).
Proof.
  induction 1 as [|x l Hs IH Hall]; [constructor|].
  rewrite reverse_cons. apply StronglySorted_app_2; [|done|repeat constructor].
  intros y z Hy Hz. apply list_elem_of_singleton in Hz as ->.
  rewrite elem_of_reverse in Hy. rewrite Forall_forall in Hall.
  unfold flip. by apply Hall.
Qed.

Lemma tally_pos {K} `{EqDecision K} (key : Job.t -> K) k docs :
  (0 < tally key k docs)%nat -> exists d, d ∈ docs /\ key d = k.
Proof.
  induction docs as [|d docs IH]; [unfold tally; simpl; lia|].
  rewrite tally_cons. destruct (decide (key d = k)) as [E|E].
  - intros _. exists d. split; [left|done].
  - intros Hp. destruct (IH Hp) as (d' & Hin & E'). exists d'. split; [by right|done].
Qed.

Lemma tally_month owner ym db :
  tally year_month ym (Pipeline.match_createdBy owner db) = count_month owner ym db.
Proof.
  unfold tally, count_month, Pipeline.match_createdBy.
  induction db as [|j db IH]; [done|]. cbn [List.filter].
  rewrite (String.eqb_sym (Job.createdBy j) owner).
  destruct (String.eqb owner (Job.createdBy j)); cbn [andb List.filter]; [|exact IH].
  destruct (bool_decide (year_month j = ym)); cbn [length]; by rewrite IH.
Qed.

Lemma elem_of_match_createdBy owner db j :
  j ∈ Pipeline.match_createdBy owner db <-> j ∈ db /\ Job.createdBy j = owner.
Proof.
  unfold Pipeline.match_createdBy.
  rewrite !list_elem_of_In, filter_In, String.eqb_eq. intuition congruence.
Qed.

(** The groups of the monthly pipeline. *)
Lemma monthly_pipeline_spec owner db :
  let groups := reverse (monthly_pipeline owner db) in
  (length groups <= 6)%nat
  /\ StronglySorted older groups
  /\ (forall g, g ∈ groups ->
        1 <= snd (fst g) <= 12 /\ (0 < snd g)%nat
        /\ snd g = count_month owner (fst g) db)
  /\ (forall j, j ∈ db -> Job.createdBy j = owner ->
        (exists n, (year_month j, n) ∈ groups)
        \/ (length groups = 6%nat /\ forall g, g ∈ groups -> Pipeline.ym_lt (year_month j) (fst g))).
Proof.
  intros groups. subst groups. unfold monthly_pipeline, Pipeline.sort_year_month_desc.
  set (docs := Pipeline.match_createdBy owner db).
  set (gs := Pipeline.group_count year_month docs).
  set (sorted := merge_sort Pipeline.newer_first gs).
  destruct (group_count_spec year_month docs) as [[Hnd Hpos] Hc]. fold gs in Hnd, Hpos, Hc.
  assert (sorted ≡ₚ gs) as Hperm by apply merge_sort_Permutation.
  assert (StronglySorted (flip older) sorted) as Hsorted.
  { apply StronglySorted_strict; [by rewrite Hperm|].
    apply (StronglySorted_merge_sort Pipeline.newer_first). }
  rewrite <- (take_drop 6 sorted) in Hsorted.
  apply StronglySorted_app in Hsorted as (Hcross & Htake & _).
  split; [|split; [|split]].
  - rewrite length_reverse, length_take. lia.
  - apply (StronglySorted_reverse (flip older)), Htake.
  - intros [k n] Hin. rewrite elem_of_reverse in Hin.
    apply subseteq_take in Hin. rewrite Hperm in Hin.
    apply group_count_elem in Hin as [-> Hn]. simpl.
    split; [|split; [done|apply tally_month]].
    destruct (tally_pos _ _ _ Hn) as (d & _ & <-). apply month_range.
  - intros j Hin Ho.
    assert (j ∈ docs) as Hj by by apply elem_of_match_createdBy.
    apply (group_count_key year_month) in Hj. fold gs in Hj.
    apply list_elem_of_fmap in Hj as ([k n] & Hk & Hg). simpl in Hk. subst k.
    rewrite <- Hperm, <- (take_drop 6 sorted) in Hg.
    apply elem_of_app in Hg as [Hg|Hg].
    + left. exists n. by rewrite elem_of_reverse.
    + right. split.
      * rewrite length_reverse, length_take.
        destruct (decide (length sorted <= 6)%nat) as [Hle|]; [|lia].
        rewrite drop_ge in Hg by done. by apply elem_of_nil in Hg.
      * intros g Hgin. rewrite elem_of_reverse in Hgin.
        pose proof (Hcross g (year_month j, n) Hgin Hg) as Hlt.
        unfold flip, older in *. exact Hlt.
Qed.

(** C6. monthlyApplications lists the caller's documents grouped by the
    (year, month) of their creation: at most six groups, each with the
    number of the caller's documents of that month, which is positive, in
    strictly ascending chronological order; every month of the caller that
    is missing is older than the six listed; and the label of an entry is
    determined by the month number (1-12) and the year of its group,
    whatever the current date. *)
Theorem showStats_monthlyApplications
    (userId : string) (now : Moment.t) (db : Job.collection) (owner : ObjectId) :
  Job.castObjectId userId = Value owner ->
  Moment.valid now ->
  exists groups : list ((Z * Z) * nat),
    (monthlyApplications ∘ snd) <$> showStats userId now db
    = Value (map (fun g => {| date := month_label (snd (fst g)) (fst (fst g));
                              count := snd g |}) groups)
    /\ (length groups <= 6)%nat
    /\ StronglySorted older groups
    /\ (forall g, g ∈ groups ->
          1 <= snd (fst g) <= 12 /\ (0 < snd g)%nat
          /\ snd g = count_month owner (fst g) db)
    /\ (forall j, j ∈ db -> Job.createdBy j = owner ->
          (exists n, (year_month j, n) ∈ groups)
          \/ (length groups = 6%nat
              /\ forall g, g ∈ groups -> Pipeline.ym_lt (year_month j) (fst g))).
Proof.
  intros Ho Hv. exists (reverse (monthly_pipeline owner db)).
  destruct (monthly_pipeline_spec owner db) as (Hlen & Hsorted & Hgroups & Hrecent).
  split; [|done].
  unfold showStats, Job.ObjectId_of. rewrite Ho. simpl. f_equal.
  rewrite <- fmap_reverse. apply list_fmap_ext.
  intros i [[y m] c] Hi. apply list_elem_of_lookup_2 in Hi.
  destruct (Hgroups _ Hi) as [Hm _]. by apply relabel_label.
Qed.

Lemma showStats_monthlyApplications_shared :
  (monthlyApplications ∘ snd) <$> showStats alice (Moment.mk 2024 0 31) shared_db
  = Value [ {| date := "May 2023"; count := 1 |}; {| date := "Jun 2023"; count := 2 |} ].
Proof.
  destruct (showStats_monthlyApplications alice (Moment.mk 2024 0 31) shared_db alice)
    as (groups & H & _); [reflexivity|by vm_compute|].
  reflexivity.
Defined.

(** ** Search *)






Lemma has_dot_literal p : Regex.has_dot (Regex.literal p) = false.
Proof. induction p; [done|]. simpl. done. Qed.











(** ** Update and create *)

Lemma update_rejected_jobType body :
  update_rejected body = Js.strict_eq (Body.jobType body) "".
Proof. done. Qed.

(** C2 on the code.  The condition of updateJob is a comma expression whose
    value is that of its last operand: the request is rejected exactly when
    jobType is the empty string.  A body without company is accepted and
    applied; a body with company and position and an empty jobType is
    rejected. *)
Theorem updateJob_validation :
  (forall body, update_rejected body = true <-> Body.jobType body = Some "")
  /\ (let body := Body.mk None (Some "Developer") None None (Some "remote") None in
      company_or_position_missing body = true
      /\ fst (updateJob alice (job_id "1") body 1700000000000 three_jobs)
         = Value (OK, Job.mk (job_id "1") "Acme" "Developer" "pending" "remote"
                             "my city" alice 1684412965000 1700000000000))
  /\ (let body := Body.mk (Some "Acme") (Some "Developer") None None (Some "") None in
      company_or_position_missing body = false
      /\ updateJob alice (job_id "1") body 1700000000000 three_jobs
         = (Raise (BadRequestError "Company or Position fields cannot be empty"),
            three_jobs)).
Proof.
  split; [|by vm_compute].
  intros body. rewrite update_rejected_jobType.
  destruct (Body.jobType body) as [s|]; simpl; [|done].
  rewrite String.eqb_eq. split; congruence.
Qed.






(** ** Examples *)

Example shared_list :
  (jobs ∘ snd) <$> getAllJobs bob Query.empty shared_db = Value [bobs_job].
Proof. by vm_compute. Qed.

Example getJob_foreign :
  getJob alice (job_id "4") shared_db = Raise (no_job (job_id "4")).
Proof. by vm_compute. Qed.

Example deleteJob_foreign :
  deleteJob alice (job_id "4") shared_db = (Raise (no_job (job_id "4")), shared_db).
Proof. by vm_compute. Qed.

Example deleteJob_twice :
  let db' := snd (deleteJob alice (job_id "2") shared_db) in
  db' = [engineer; bobs_job; director]
  /\ deleteJob alice (job_id "2") db' = (Raise (no_job (job_id "2")), db').
Proof. by vm_compute. Qed.

Example stats_scenario :
  (defaultStats ∘ snd) <$> showStats alice (Moment.mk 2024 1 29) shared_db
  = Value {| pending := 2; interview := 1; declined := 0 |}.
Proof. by vm_compute. Qed.

Example createJob_empty_position :
  fst (createJob "my city" alice (Body.mk (Some "Acme") (Some "") None None None None)
                 (job_id "9") 0 [])
  = Raise ValidationError.
Proof. by vm_compute. Qed.

Example label_from_leap_day :
  Moment.format_MMM_Y (Moment.year 2023 (Moment.month 1 (Moment.mk 2024 0 31)))
  = "Feb 2023".
Proof. by vm_compute. Qed.

(** ** String to number *)

Example of_string_12 : Js.of_string "12" = Js.Num 12.
Proof. reflexivity. Qed.
Example of_string_neg : Js.of_string " -3 " = Js.Num (-3).
Proof. reflexivity. Qed.
Example of_string_abc : Js.of_string "abc" = Js.NaN.
Proof. reflexivity. Qed.
Example of_string_12abc : Js.of_string "12abc" = Js.NaN.
Proof. reflexivity. Qed.
Example of_string_frac : Js.of_string "2.5" = Js.Untracked.
Proof. reflexivity. Qed.
Example of_string_hex : Js.of_string "0x10" = Js.Untracked.
Proof. reflexivity. Qed.
Example of_string_neghex : Js.of_string "-0x10" = Js.NaN.
Proof. reflexivity. Qed.
Example of_string_empty : Js.of_string "  " = Js.Num 0.
Proof. reflexivity. Qed.
Example of_string_sign : Js.of_string "+" = Js.NaN.
Proof. reflexivity. Qed.
Example of_string_exp : Js.of_string "1e3" = Js.Untracked.
Proof. reflexivity. Qed.
Example of_string_dot : Js.of_string "." = Js.NaN.
Proof. reflexivity. Qed.
Example of_string_big : Js.of_string "9007199254740993" = Js.Untracked.
Proof. reflexivity. Qed.

(** * Further properties of the handlers *)

(** ** Single documents *)

Lemma cast_one_of userId jobId owner id :
  Job.castObjectId userId = Value owner ->
  Job.castObjectId jobId = Value id ->
  Job.cast (one_of userId jobId) = Value (one_of owner id).
Proof. intros Ho Hi. unfold Job.cast, one_of. simpl. by rewrite Hi, Ho. Qed.

Lemma matches_one_of owner id j :
  Job.matches (one_of owner id) j = Value (is_job id owner j).
Proof.
  unfold Job.matches, Job.matches_eq, one_of, is_job. simpl.
  rewrite !andb_true_r. by destruct (_ && _).
Qed.

Lemma select_one_of owner id db :
  Job.select (one_of owner id) db = Value (List.filter (is_job id owner) db).
Proof.
  induction db as [|j db IH]; [done|]. simpl.
  rewrite matches_one_of, IH. simpl. by destruct (is_job id owner j).
Qed.

Lemma is_job_spec id owner j :
  is_job id owner j = true <-> Job._id j = id /\ Job.createdBy j = owner.
Proof.
  unfold is_job. rewrite andb_true_iff, !String.eqb_eq. intuition congruence.
Qed.

(** Either no document is the one looked for, or the collection splits at
    the first one that is. *)
Lemma first_job id owner db :
  Forall (fun j => is_job id owner j = false) db
  \/ exists l1 j l2,
       db = l1 ++ j :: l2
       /\ Forall (fun j => is_job id owner j = false) l1
       /\ is_job id owner j = true.
Proof.
  induction db as [|d db IH]; [by left|].
  destruct (is_job id owner d) eqn:E.
  - right. exists [], d, db. by repeat split.
  - destruct IH as [IH|(l1 & j & l2 & -> & Hl1 & Hj)].
    + left. by constructor.
    + right. exists (d :: l1), j, l2. repeat split; [|done]. by constructor.
Qed.

Lemma filter_none id owner l :
  Forall (fun j => is_job id owner j = false) l -> List.filter (is_job id owner) l = [].
Proof.
  induction 1 as [|j l Hj _ IH]; [done|]. simpl. by rewrite Hj.
Qed.

Lemma modify_first_none owner id g db :
  Forall (fun j => is_job id owner j = false) db ->
  Job.modify_first (one_of owner id) g db = Value (None, db).
Proof.
  induction 1 as [|j l Hj _ IH]; [done|]. simpl.
  rewrite matches_one_of, Hj. simpl. by rewrite IH.
Qed.

Lemma modify_first_split owner id g l1 j l2 :
  Forall (fun j => is_job id owner j = false) l1 ->
  is_job id owner j = true ->
  Job.modify_first (one_of owner id) g (l1 ++ j :: l2)
  = Value (Some j, l1 ++ option_list (g j) ++ l2).
Proof.
  induction 1 as [|d l Hd _ IH]; intros Hj; simpl.
  - by rewrite matches_one_of, Hj.
  - rewrite matches_one_of, Hd. simpl. by rewrite (IH Hj).
Qed.

Lemma not_job_elem id owner l :
  Forall (fun j => is_job id owner j = false) l ->
  forall j, j ∈ l -> ~ (Job._id j = id /\ Job.createdBy j = owner).
Proof.
  intros Hnone j Hin Hj. rewrite Forall_forall in Hnone.
  apply is_job_spec in Hj. by rewrite (Hnone j Hin) in Hj.
Qed.

Lemma getJob_none userId jobId db owner id :
  Job.castObjectId userId = Value owner ->
  Job.castObjectId jobId = Value id ->
  Forall (fun j => is_job id owner j = false) db ->
  getJob userId jobId db = Raise (no_job jobId).
Proof.
  intros Ho Hi Hnone. unfold getJob, Job.findOne, Job.scan.
  change (Filter.mk (Some jobId) (Some userId) None None None) with (one_of userId jobId).
  rewrite (cast_one_of _ _ _ _ Ho Hi). simpl.
  by rewrite select_one_of, (filter_none _ _ _ Hnone).
Qed.

Lemma getJob_split userId jobId owner id l1 j l2 :
  Job.castObjectId userId = Value owner ->
  Job.castObjectId jobId = Value id ->
  Forall (fun j => is_job id owner j = false) l1 ->
  is_job id owner j = true ->
  getJob userId jobId (l1 ++ j :: l2) = Value (OK, j).
Proof.
  intros Ho Hi Hl1 Hj. unfold getJob, Job.findOne, Job.scan.
  change (Filter.mk (Some jobId) (Some userId) None None None) with (one_of userId jobId).
  rewrite (cast_one_of _ _ _ _ Ho Hi). simpl.
  rewrite select_one_of, List.filter_app, (filter_none _ _ _ Hl1). simpl.
  by rewrite Hj.
Qed.

Lemma deleteJob_none userId jobId db owner id :
  Job.castObjectId userId = Value owner ->
  Job.castObjectId jobId = Value id ->
  Forall (fun j => is_job id owner j = false) db ->
  deleteJob userId jobId db = (Raise (no_job jobId), db).
Proof.
  intros Ho Hi Hnone. unfold deleteJob, Job.findOneAndDelete.
  change (Filter.mk (Some jobId) (Some userId) None None None) with (one_of userId jobId).
  rewrite (cast_one_of _ _ _ _ Ho Hi). simpl.
  by rewrite (modify_first_none _ _ _ _ Hnone).
Qed.

Lemma deleteJob_split userId jobId owner id l1 j l2 :
  Job.castObjectId userId = Value owner ->
  Job.castObjectId jobId = Value id ->
  Forall (fun j => is_job id owner j = false) l1 ->
  is_job id owner j = true ->
  deleteJob userId jobId (l1 ++ j :: l2) = (Value (NO_CONTENT, tt), l1 ++ l2).
Proof.
  intros Ho Hi Hl1 Hj. unfold deleteJob, Job.findOneAndDelete.
  change (Filter.mk (Some jobId) (Some userId) None None None) with (one_of userId jobId).
  rewrite (cast_one_of _ _ _ _ Ho Hi). simpl.
  by rewrite (modify_first_split _ _ _ _ _ _ Hl1 Hj).
Qed.

(** X1. read-one, for well-formed identifiers: the answer is 200 with the
    first document that has the identifier and belongs to the caller, and
    otherwise the one NotFoundError, whether the identifier is unknown or
    the document belongs to somebody else; nothing else can happen. *)
Theorem getJob_outcomes
    (userId jobId : string) (db : Job.collection) (owner id : ObjectId) :
  Job.castObjectId userId = Value owner ->
  Job.castObjectId jobId = Value id ->
  (getJob userId jobId db = Raise (no_job jobId)
   /\ forall j, j ∈ db -> ~ (Job._id j = id /\ Job.createdBy j = owner))
  \/ exists l1 j l2,
       getJob userId jobId db = Value (OK, j)
       /\ db = l1 ++ j :: l2
       /\ Job._id j = id /\ Job.createdBy j = owner
       /\ forall d, d ∈ l1 -> ~ (Job._id d = id /\ Job.createdBy d = owner).
Proof.
  intros Ho Hi.
  destruct (first_job id owner db) as [Hnone|(l1 & j & l2 & -> & Hl1 & Hj)].
  - left. split; [by eapply getJob_none|by apply not_job_elem].
  - right. exists l1, j, l2.
    rewrite (getJob_split _ _ _ _ _ _ _ Ho Hi Hl1 Hj).
    apply is_job_spec in Hj as [? ?]. repeat split; try done.
    by apply not_job_elem.
Qed.

Lemma getJob_outcomes_bob :
  getJob bob (job_id "1") shared_db = Raise (no_job (job_id "1"))
  /\ getJob bob (job_id "4") shared_db = Value (OK, bobs_job).
Proof.
  split.
  - destruct (getJob_outcomes bob (job_id "1") shared_db bob (job_id "1"))
      as [[H _]|(l1 & j & l2 & H & _)]; [reflexivity|reflexivity|exact H|].
    vm_compute in H. discriminate H.
  - reflexivity.
Defined.

(** X2. delete, for well-formed identifiers: either the first document
    with the identifier that belongs to the caller is removed, every other
    document staying in place and in order, and the answer is 204; or no
    document matches, the collection is untouched and the answer is the
    NotFoundError. *)
Theorem deleteJob_outcomes
    (userId jobId : string) (db : Job.collection) (owner id : ObjectId) :
  Job.castObjectId userId = Value owner ->
  Job.castObjectId jobId = Value id ->
  (deleteJob userId jobId db = (Raise (no_job jobId), db)
   /\ forall j, j ∈ db -> ~ (Job._id j = id /\ Job.createdBy j = owner))
  \/ exists l1 j l2,
       db = l1 ++ j :: l2
       /\ deleteJob userId jobId db = (Value (NO_CONTENT, tt), l1 ++ l2)
       /\ Job._id j = id /\ Job.createdBy j = owner
       /\ forall d, d ∈ l1 -> ~ (Job._id d = id /\ Job.createdBy d = owner).
Proof.
  intros Ho Hi.
  destruct (first_job id owner db) as [Hnone|(l1 & j & l2 & -> & Hl1 & Hj)].
  - left. split; [by eapply deleteJob_none|by apply not_job_elem].
  - right. exists l1, j, l2.
    rewrite (deleteJob_split _ _ _ _ _ _ _ Ho Hi Hl1 Hj).
    apply is_job_spec in Hj as [? ?]. repeat split; try done.
    by apply not_job_elem.
Qed.

Lemma deleteJob_outcomes_analyst :
  deleteJob alice (job_id "2") shared_db
  = (Value (NO_CONTENT, tt), [engineer; bobs_job; director]).
Proof.
  destruct (deleteJob_outcomes alice (job_id "2") shared_db alice (job_id "2"))
    as [[H _]|(l1 & j & l2 & _ & H & _)]; [reflexivity|reflexivity| |].
  - vm_compute in H. discriminate H.
  - reflexivity.
Defined.

Lemma unique_id_after l1 j l2 d :
  NoDup (map Job._id (l1 ++ j :: l2)) -> d ∈ l1 ++ l2 -> Job._id d <> Job._id j.
Proof.
  rewrite map_app. simpl. intros Hnd Hin E.
  apply NoDup_app in Hnd as (Hl1 & Hcross & Hl2).
  apply NoDup_cons in Hl2 as [Hj Hl2].
  apply elem_of_app in Hin as [Hin|Hin].
  - apply (Hcross (Job._id d)); [by apply (list_elem_of_fmap_2 Job._id)|].
    rewrite E. left.
  - apply Hj. rewrite <- E. by apply (list_elem_of_fmap_2 Job._id).
Qed.

(** X3. Where identifiers are unique, a delete that succeeded cannot be
    repeated: afterwards read-one and delete of the same identifier both
    answer the NotFoundError, and the second delete changes nothing. *)
Theorem deleteJob_then_gone
    (userId jobId : string) (db : Job.collection) (owner id : ObjectId) :
  Job.castObjectId userId = Value owner ->
  Job.castObjectId jobId = Value id ->
  NoDup (map Job._id db) ->
  fst (deleteJob userId jobId db) = Value (NO_CONTENT, tt) ->
  getJob userId jobId (snd (deleteJob userId jobId db)) = Raise (no_job jobId)
  /\ deleteJob userId jobId (snd (deleteJob userId jobId db))
     = (Raise (no_job jobId), snd (deleteJob userId jobId db)).
Proof.
  intros Ho Hi Hnd Hdel.
  destruct (first_job id owner db) as [Hnone|(l1 & j & l2 & -> & Hl1 & Hj)].
  { by rewrite (deleteJob_none _ _ _ _ _ Ho Hi Hnone) in Hdel. }
  rewrite (deleteJob_split _ _ _ _ _ _ _ Ho Hi Hl1 Hj). simpl. clear Hdel.
  assert (Forall (fun d => is_job id owner d = false) (l1 ++ l2)) as Hnone.
  { rewrite Forall_forall. intros d Hin.
    destruct (is_job id owner d) eqn:E; [|done].
    apply is_job_spec in E as [E _]. apply is_job_spec in Hj as [Hj _].
    destruct (unique_id_after l1 j l2 d Hnd Hin). congruence. }
  split; [by eapply getJob_none|by eapply deleteJob_none].
Qed.

Lemma deleteJob_then_gone_analyst :
  getJob alice (job_id "2") (snd (deleteJob alice (job_id "2") shared_db))
  = Raise (no_job (job_id "2"))
  /\ deleteJob alice (job_id "2") (snd (deleteJob alice (job_id "2") shared_db))
     = (Raise (no_job (job_id "2")), snd (deleteJob alice (job_id "2") shared_db)).
Proof.
  apply (deleteJob_then_gone alice (job_id "2") shared_db alice (job_id "2"));
    try reflexivity.
  vm_compute. repeat (constructor; [by rewrite ?elem_of_cons, ?elem_of_nil; intuition discriminate|]).
  constructor.
Defined.

(** Without unique identifiers the second delete finds the next document
    of that identifier. *)
Example deleteJob_duplicate_id :
  deleteJob alice (job_id "1")
    (snd (deleteJob alice (job_id "1") [engineer; engineer]))
  = (Value (NO_CONTENT, tt), []).
Proof. by vm_compute. Qed.

(** ** Create and update *)

Lemma createJob_run location userId body fresh now db owner :
  Job.castObjectId userId = Value owner ->
  Body.other_keys body = false ->
  createJob location userId body fresh now db
  = if Job.validate body
    then let j := Job.mk fresh
                    (default "" (Body.company body))
                    (default "" (Body.position body))
                    (default Job.defaultStatus (Body.status body))
                    (default Job.defaultJobType (Body.jobType body))
                    (default location (Body.jobLocation body))
                    owner now now in
         (Value (CREATED, j), db ++ [j])
    else (Raise ValidationError, db).
Proof.
  intros Ho Hk. unfold createJob, Job.create, Job.cast_path. simpl.
  rewrite Hk, Ho. simpl.
  unfold Job.validate. simpl. by destruct (_ && _).
Qed.

Lemma createJob_tracked location userId body fresh now db c j :
  fst (createJob location userId body fresh now db) = Value (c, j) ->
  Body.other_keys body = false.
Proof.
  unfold createJob, Job.create. simpl. by destruct (Body.other_keys body).
Qed.

(** X4. A job that was created can be read back by its creator and by
    nobody else: when createJob answers, the answer is 201, one document is
    appended to the collection, under the fresh identifier and with the
    caller as owner; read-one of that identifier by the creator returns the
    very document, and read-one by any other caller answers the
    NotFoundError. *)
Theorem createJob_then_getJob
    (location userId : string) (body : Body.t) (fresh : ObjectId) (now : Z)
    (db : Job.collection) (owner : ObjectId) (c : StatusCode) (j : Job.t) :
  Job.castObjectId userId = Value owner ->
  Job.castObjectId fresh = Value fresh ->
  (forall d, d ∈ db -> Job._id d <> fresh) ->
  fst (createJob location userId body fresh now db) = Value (c, j) ->
  c = CREATED
  /\ snd (createJob location userId body fresh now db) = db ++ [j]
  /\ Job._id j = fresh /\ Job.createdBy j = owner
  /\ getJob userId fresh (db ++ [j]) = Value (OK, j)
  /\ forall other owner',
       Job.castObjectId other = Value owner' -> owner' <> owner ->
       getJob other fresh (db ++ [j]) = Raise (no_job fresh).
Proof.
  intros Ho Hf Hfresh Hc. pose proof (createJob_tracked _ _ _ _ _ _ _ _ Hc) as Hk.
  revert Hc. rewrite (createJob_run _ _ _ _ _ _ _ Ho Hk).
  destruct (Job.validate body); [|done]. simpl. intros [= <- <-].
  assert (forall o, Forall (fun d => is_job fresh o d = false) db) as Hnone.
  { intros o. rewrite Forall_forall. intros d Hin.
    destruct (is_job fresh o d) eqn:E; [|done].
    apply is_job_spec in E as [E _]. by destruct (Hfresh d Hin). }
  repeat split.
  - apply (getJob_split userId fresh owner fresh db _ []); try done.
    apply is_job_spec. done.
  - intros other owner' Ho' Hne.
    apply (getJob_none other fresh _ owner' fresh); try done.
    apply Forall_app. split; [done|]. constructor; [|done].
    destruct (is_job fresh owner' _) eqn:E; [|done].
    apply is_job_spec in E as [_ E]. simpl in E. congruence.
Qed.

Lemma createJob_then_getJob_alice :
  fst (createJob "my city" alice tester_body (job_id "5") 1700000000000 shared_db)
  = Value (CREATED, tester_job)
  /\ Job.createdBy tester_job = alice
  /\ getJob alice (job_id "5") (shared_db ++ [tester_job]) = Value (OK, tester_job)
  /\ getJob bob (job_id "5") (shared_db ++ [tester_job]) = Raise (no_job (job_id "5")).
Proof.
  assert (fst (createJob "my city" alice tester_body (job_id "5") 1700000000000
                 shared_db) = Value (CREATED, tester_job)) as Hc by (by vm_compute).
  destruct (createJob_then_getJob "my city" alice tester_body
              (job_id "5") 1700000000000 shared_db alice CREATED tester_job)
    as (_ & _ & _ & Hown & Hread & Hother);
    [by vm_compute|by vm_compute| |exact Hc|].
  - intros d Hin. unfold shared_db in Hin.
    rewrite !elem_of_cons, elem_of_nil in Hin.
    destruct Hin as [->|[->|[->|[->|[]]]]]; by vm_compute.
  - split; [exact Hc|]. split; [exact Hown|]. split; [exact Hread|].
    apply (Hother bob bob); [by vm_compute|by vm_compute].
Defined.

Lemma modify_first_birth f g db o db' :
  (forall j j', g j = Some j' ->
     Job._id j' = Job._id j /\ Job.createdAt j' = Job.createdAt j) ->
  (forall j, is_Some (g j)) ->
  Job.modify_first f g db = Value (o, db') -> birth db' = birth db.
Proof.
  intros Hg Hsome. revert o db'.
  induction db as [|d db IH]; simpl; intros o db'.
  - by intros [= <- <-].
  - unfoldM. destruct (Job.matches f d) as [[|]| |]; try done.
    + intros [= <- <-]. destruct (Hsome d) as [d' Hd]. rewrite Hd.
      unfold birth. simpl.
      destruct (Hg d d' Hd) as [E1 E2]. by rewrite E1, E2.
    + destruct (Job.modify_first f g db) as [[o' r']| |]; try done.
      intros [= <- <-]. unfold birth in *. cbn [map]. by rewrite (IH o' r' eq_refl).
Qed.

(** X5. An update of the paths company, position, jobLocation, status and
    jobType never adds, removes or reorders documents and never touches an
    identifier or a creation time, whatever the caller and the identifier,
    and whether it succeeds or fails. *)
Theorem updateJob_keeps_birth
    (userId jobId : string) (body : Body.t) (now : Z) (db : Job.collection) :
  fst (updateJob userId jobId body now db) <> OutOfModel ->
  birth (snd (updateJob userId jobId body now db)) = birth db
  /\ length (snd (updateJob userId jobId body now db)) = length db.
Proof.
  intros _.
  assert (birth (snd (updateJob userId jobId body now db)) = birth db) as H.
  { unfold updateJob.
    destruct (update_rejected body); [done|].
    unfold Job.findOneAndUpdate. unfoldM.
    destruct (Body.other_keys _ || Job.sets_nothing _); [done|].
    destruct (Job.cast _) as [f'| |]; try done.
    destruct (Job.validate_update _); [|done].
    destruct (Job.modify_first f' _ db) as [[o r]| |] eqn:Hm; try done.
    destruct o as [j|]; simpl; [|done].
    eapply modify_first_birth; [| |exact Hm].
    - by intros j0 j' [= <-].
    - intros j0. by eexists. }
  split; [exact H|].
  apply (f_equal length) in H. unfold birth in H. by rewrite !length_map in H.
Qed.

Lemma updateJob_keeps_birth_director :
  fst (updateJob alice (job_id "3") declined_body 1700000000000 shared_db)
  = Value (OK, declined_director)
  /\ birth (snd (updateJob alice (job_id "3") declined_body 1700000000000 shared_db))
     = birth shared_db
  /\ length (snd (updateJob alice (job_id "3") declined_body 1700000000000 shared_db))
     = length shared_db.
Proof.
  assert (fst (updateJob alice (job_id "3") declined_body 1700000000000 shared_db)
          = Value (OK, declined_director)) as Hu by (by vm_compute).
  split; [exact Hu|].
  apply (updateJob_keeps_birth alice (job_id "3") declined_body 1700000000000 shared_db).
  by rewrite Hu.
Defined.

Lemma updateJob_split userId jobId owner id body now l1 j l2 :
  Job.castObjectId userId = Value owner ->
  Job.castObjectId jobId = Value id ->
  Body.other_keys body || Job.sets_nothing (Job.settable body) = false ->
  update_rejected body = false ->
  Job.validate_update (Job.settable body) = true ->
  Forall (fun j => is_job id owner j = false) l1 ->
  is_job id owner j = true ->
  updateJob userId jobId body now (l1 ++ j :: l2)
  = (Value (OK, Job.apply_update (Job.settable body) now j),
     l1 ++ Job.apply_update (Job.settable body) now j :: l2).
Proof.
  intros Ho Hi Hb Hr Hv Hl1 Hj. unfold updateJob, Job.findOneAndUpdate.
  change (Filter.mk (Some jobId) (Some userId) None None None) with (one_of userId jobId).
  change (Body.other_keys (Job.settable body)) with (Body.other_keys body).
  rewrite Hr, Hb, (cast_one_of _ _ _ _ Ho Hi). simpl. rewrite Hv.
  by rewrite (modify_first_split _ _ _ _ _ _ Hl1 Hj).
Qed.

(** X6. A successful update is a partial update that can be read back: the
    document returned is the one read-one returned before, with the same
    identifier, owner and creation time, each of company, position,
    status, jobType and jobLocation replaced when the body carries it and
    kept otherwise; and read-one afterwards returns exactly that
    document. *)
Theorem updateJob_then_getJob
    (userId jobId : string) (body : Body.t) (now : Z) (db : Job.collection)
    (owner id : ObjectId) (c : StatusCode) (j' : Job.t) :
  Job.castObjectId userId = Value owner ->
  Job.castObjectId jobId = Value id ->
  fst (updateJob userId jobId body now db) = Value (c, j') ->
  c = OK
  /\ getJob userId jobId (snd (updateJob userId jobId body now db)) = Value (OK, j')
  /\ exists j,
       getJob userId jobId db = Value (OK, j)
       /\ Job._id j' = Job._id j
       /\ Job.createdBy j' = Job.createdBy j
       /\ Job.createdAt j' = Job.createdAt j
       /\ Job.company j' = default (Job.company j) (Body.company body)
       /\ Job.position j' = default (Job.position j) (Body.position body)
       /\ Job.status j' = default (Job.status j) (Body.status body)
       /\ Job.jobType j' = default (Job.jobType j) (Body.jobType body)
       /\ Job.jobLocation j' = default (Job.jobLocation j) (Body.jobLocation body).
Proof.
  intros Ho Hi Hup.
  destruct (update_rejected body) eqn:Hr.
  { unfold updateJob in Hup. by rewrite Hr in Hup. }
  destruct (Body.other_keys body || Job.sets_nothing (Job.settable body)) eqn:Hb.
  { unfold updateJob, Job.findOneAndUpdate in Hup.
    change (Body.other_keys (Job.settable body)) with (Body.other_keys body) in Hup.
    by rewrite Hr, Hb in Hup. }
  destruct (Job.validate_update (Job.settable body)) eqn:Hv.
  2:{ unfold updateJob, Job.findOneAndUpdate in Hup.
      change (Filter.mk (Some jobId) (Some userId) None None None)
        with (one_of userId jobId) in Hup.
      change (Body.other_keys (Job.settable body)) with (Body.other_keys body) in Hup.
      rewrite Hr, Hb, (cast_one_of _ _ _ _ Ho Hi) in Hup. simpl in Hup.
      by rewrite Hv in Hup. }
  destruct (first_job id owner db) as [Hnone|(l1 & j & l2 & -> & Hl1 & Hj)].
  { unfold updateJob, Job.findOneAndUpdate in Hup.
    change (Filter.mk (Some jobId) (Some userId) None None None)
      with (one_of userId jobId) in Hup.
    change (Body.other_keys (Job.settable body)) with (Body.other_keys body) in Hup.
    rewrite Hr, Hb, (cast_one_of _ _ _ _ Ho Hi) in Hup. simpl in Hup.
    rewrite Hv in Hup. by rewrite (modify_first_none _ _ _ _ Hnone) in Hup. }
  rewrite (updateJob_split _ _ _ _ _ now _ _ l2 Ho Hi Hb Hr Hv Hl1 Hj) in Hup |- *.
  simpl in Hup |- *. injection Hup as <- <-.
  split; [done|]. split.
  - by apply (getJob_split _ _ owner id).
  - exists j. by rewrite (getJob_split _ _ _ _ _ _ _ Ho Hi Hl1 Hj).
Qed.

Lemma updateJob_then_getJob_director :
  fst (updateJob alice (job_id "3") declined_body 1700000000000 shared_db)
  = Value (OK, declined_director)
  /\ getJob alice (job_id "3")
       (snd (updateJob alice (job_id "3") declined_body 1700000000000 shared_db))
     = Value (OK, declined_director)
  /\ getJob alice (job_id "3") shared_db = Value (OK, director)
  /\ Job.position declined_director = Job.position director
  /\ Job.status declined_director = "declined".
Proof.
  assert (fst (updateJob alice (job_id "3") declined_body 1700000000000 shared_db)
          = Value (OK, declined_director)) as Hu by (by vm_compute).
  destruct (updateJob_then_getJob alice (job_id "3") declined_body
              1700000000000 shared_db alice (job_id "3") OK declined_director)
    as (_ & Hread & j & Hj & _ & _ & _ & _ & Hp & Hs & _);
    [by vm_compute|by vm_compute|exact Hu|].
  assert (j = director) as -> by (vm_compute in Hj; by injection Hj as <-).
  split; [exact Hu|]. split; [exact Hread|]. split; [exact Hj|].
  split; [exact Hp|exact Hs].
Defined.

(** ** The list route *)

Lemma truthy_absent_if_empty v : Js.truthy (absent_if_empty v) = Js.truthy v.
Proof. by destruct v as [[|c s]|]. Qed.

Lemma strict_eq_absent_if_empty v lit :
  lit <> "" -> Js.strict_eq (absent_if_empty v) lit = Js.strict_eq v lit.
Proof.
  intros Hl. destruct v as [[|c s]|]; try done. simpl.
  by destruct lit.
Qed.

Lemma to_number_absent_if_empty v d :
  Js.or_else (Js.to_number (absent_if_empty v)) d = Js.or_else (Js.to_number v) d.
Proof. by destruct v as [[|c s]|]. Qed.

Lemma queryObject_without_empty userId q :
  queryObject userId (without_empty q) = queryObject userId q.
Proof.
  unfold queryObject, without_empty. cbn [Query.search Query.status Query.jobType].
  rewrite !truthy_absent_if_empty, !strict_eq_absent_if_empty by done.
  destruct (Query.search q) as [[|c s]|], (Query.status q) as [[|c' s']|],
           (Query.jobType q) as [[|c'' s'']|]; reflexivity.
Qed.

(** X7. An empty query parameter is an absent one: giving search, status,
    jobType, sort, page or limit as the empty string changes nothing in the
    answer of the list route. *)
Theorem getAllJobs_empty_parameters
    (userId : string) (q : Query.t) (db : Job.collection) :
  getAllJobs userId (without_empty q) db = getAllJobs userId q db.
Proof.
  unfold getAllJobs, skip_of, page_of, limit_of, sorted_query.
  rewrite queryObject_without_empty.
  unfold without_empty. cbn [Query.sort Query.page Query.limit].
  by rewrite !to_number_absent_if_empty, !strict_eq_absent_if_empty.
Qed.





Lemma getAllJobs_totals userId q db c p :
  getAllJobs userId q db = Value (c, p) ->
  Job.countDocuments (queryObject userId q) db = Value (totalJobs p)
  /\ ceil_quot (totalJobs p) (limit_of q) = Value (numOfPages p).
Proof.
  unfold getAllJobs. unfoldM.
  destruct (Job.exec _ db) as [js| |]; try done.
  destruct (Job.countDocuments _ db) as [n| |]; try done.
  destruct (ceil_quot n (limit_of q)) as [k| |] eqn:E; try done.
  by intros [= <- <-].
Qed.

(** X9. totalJobs and numOfPages depend on the filter and the limit only:
    two requests of a caller that differ in nothing but page and sort are
    answered with the same totalJobs and the same numOfPages. *)
Theorem getAllJobs_counts_ignore_page_and_sort
    (userId : string) (q1 q2 : Query.t) (db : Job.collection)
    (c1 c2 : StatusCode) (p1 p2 : JobsPage) :
  Query.search q1 = Query.search q2 ->
  Query.status q1 = Query.status q2 ->
  Query.jobType q1 = Query.jobType q2 ->
  Query.limit q1 = Query.limit q2 ->
  getAllJobs userId q1 db = Value (c1, p1) ->
  getAllJobs userId q2 db = Value (c2, p2) ->
  totalJobs p1 = totalJobs p2 /\ numOfPages p1 = numOfPages p2.
Proof.
  intros Hs Hst Hjt Hl H1 H2.
  apply getAllJobs_totals in H1 as [Hn1 Hk1], H2 as [Hn2 Hk2].
  assert (queryObject userId q1 = queryObject userId q2) as Hq
    by (unfold queryObject; by rewrite Hs, Hst, Hjt).
  assert (limit_of q1 = limit_of q2) as Hlim by (unfold limit_of; by rewrite Hl).
  rewrite Hq in Hn1. rewrite Hn1 in Hn2. injection Hn2 as Hn.
  rewrite Hlim, Hn in Hk1. rewrite Hk1 in Hk2. by injection Hk2 as Hk.
Qed.

Lemma getAllJobs_counts_ignore_page_and_sort_twelve :
  exists p1 p2,
    getAllJobs alice (Query.mk None None None (Some "latest") (Some "1") (Some "5")) twelve_jobs
    = Value (OK, p1)
    /\ getAllJobs alice (Query.mk None None None (Some "a-z") (Some "3") (Some "5")) twelve_jobs
       = Value (OK, p2)
    /\ totalJobs p1 = totalJobs p2 /\ numOfPages p1 = numOfPages p2
    /\ length (jobs p1) = 5%nat /\ length (jobs p2) = 2%nat.
Proof.
  eexists _, _. split; [by vm_compute|]. split; [by vm_compute|].
  edestruct (getAllJobs_counts_ignore_page_and_sort alice
               (Query.mk None None None (Some "latest") (Some "1") (Some "5"))
               (Query.mk None None None (Some "a-z") (Some "3") (Some "5")) twelve_jobs)
    as [Ht Hn]; [reflexivity|reflexivity|reflexivity|reflexivity
                |by vm_compute|by vm_compute|].
  split; [exact Ht|]. split; [exact Hn|]. split; reflexivity.
Defined.

Lemma listing_with_page userId v q db :
  listing userId (with_page v q) db = listing userId q db.
Proof. done. Qed.

Lemma listing_scan userId q db sorted :
  listing userId q db = Value sorted ->
  exists found, Job.scan (queryObject userId q) db = Value found /\ sorted ≡ₚ found.
Proof.
  intros Hl.
  destruct (Job.scan (queryObject userId q) db) as [found| |] eqn:Hs.
  - exists found. split; [done|].
    destruct (listing_Permutation _ _ _ _ Hs) as (sorted' & Hl' & Hp).
    rewrite Hl in Hl'. by injection Hl' as ->.
  - unfold listing, Job.exec in Hl. rewrite sorted_query_conditions in Hl.
    simpl in Hl. by rewrite Hs in Hl.
  - unfold listing, Job.exec in Hl. rewrite sorted_query_conditions in Hl.
    simpl in Hl. by rewrite Hs in Hl.
Qed.

Lemma concat_chunks l n (sorted : list Job.t) :
  concat (chunks l n sorted) = take (n * l) sorted.
Proof.
  unfold chunks. induction n as [|n IH]; [done|].
  rewrite seq_S, map_app, concat_app, IH. simpl. rewrite app_nil_r.
  rewrite take_take_drop. f_equal. lia.
Qed.

Lemma NoDup_key_inj {A B} (f : A -> B) (l : list A) x y :
  NoDup (map f l) -> x ∈ l -> y ∈ l -> f x = f y -> x = y.
Proof.
  induction l as [|a l IH]; simpl; intros Hnd Hx Hy E.
  - by apply elem_of_nil in Hx.
  - apply NoDup_cons in Hnd as [Hn Hnd].
    apply elem_of_cons in Hx as [->|Hx]; apply elem_of_cons in Hy as [->|Hy].
    + done.
    + destruct Hn. rewrite E. by apply (list_elem_of_fmap_2 f).
    + destruct Hn. rewrite <- E. by apply (list_elem_of_fmap_2 f).
    + by apply IH.
Qed.

Lemma listing_in_order userId q db sorted :
  listing userId q db = Value sorted -> in_order (Query.sort q) sorted.
Proof.
  intros Hl. destruct (listing_scan _ _ _ _ Hl) as (found & Hs & _).
  rewrite (listing_cases _ _ _ _ Hs) in Hl. injection Hl as <-.
  repeat split; intros ->; simpl.
  - apply (StronglySorted_merge_sort (flip Job.by_createdAt)).
  - apply (StronglySorted_merge_sort Job.by_createdAt).
  - apply (StronglySorted_merge_sort Job.by_position).
  - apply (StronglySorted_merge_sort (flip Job.by_position)).
Qed.

(** With distinct keys there is one arrangement in the requested order. *)
Lemma in_order_unique sort (l1 l2 : list Job.t) :
  distinct_sort_keys sort l2 ->
  in_order sort l1 -> in_order sort l2 -> l1 ≡ₚ l2 -> l1 = l2.
Proof.
  intros Hd (A1 & A2 & A3 & A4) (B1 & B2 & B3 & B4) Hp.
  assert (forall x, x ∈ l1 -> x ∈ l2) as Hin by (intros x; by rewrite Hp).
  unfold distinct_sort_keys in Hd.
  destruct sort as [s|]; [|done]. simpl in Hd.
  destruct (String.eqb_spec s "latest") as [->|_].
  { apply (StronglySorted_unique_strong newest_first); auto.
    intros x y Hx Hy H1 H2. apply (NoDup_key_inj Job.createdAt l2); auto.
    unfold newest_first in *. lia. }
  destruct (String.eqb_spec s "oldest") as [->|_].
  { apply (StronglySorted_unique_strong oldest_first); auto.
    intros x y Hx Hy H1 H2. apply (NoDup_key_inj Job.createdAt l2); auto.
    unfold oldest_first in *. lia. }
  simpl in Hd.
  destruct (String.eqb_spec s "a-z") as [->|_].
  { apply (StronglySorted_unique_strong a_to_z); auto.
    intros x y Hx Hy H1 H2. apply (NoDup_key_inj Job.position l2); auto.
    unfold a_to_z in *. by apply (anti_symm String.le). }
  destruct (String.eqb_spec s "z-a") as [->|_]; [|done].
  apply (StronglySorted_unique_strong z_to_a); auto.
  intros x y Hx Hy H1 H2. apply (NoDup_key_inj Job.position l2); auto.
  unfold z_to_a in *. by apply (anti_symm String.le).
Qed.

(** X10. Paging through the list route loses and repeats nothing when the
    sort keys are distinct: for one of the four sort values, a positive
    limit and selected documents that differ pairwise in the path sorted
    by, the pages 1 to numOfPages, requested one after the other on the
    same collection, are answered with consecutive pieces of the sorted
    selection, and put end to end they are the whole selection; that
    sorted selection is the only arrangement of the selected documents in
    the requested order. *)
Theorem getAllJobs_pages_tile
    (userId : string) (q : Query.t) (db : Job.collection)
    (l : Z) (sorted : list Job.t) (pages : list (option string)) :
  limit_of q = Js.Num l -> 1 <= l ->
  listing userId q db = Value sorted ->
  distinct_sort_keys (Query.sort q) sorted ->
  Z.of_nat (length sorted) <= Js.safe_bound ->
  length pages = Z.to_nat (Js.ceil_div (Z.of_nat (length sorted)) l) ->
  (forall i v, pages !! i = Some v -> Js.to_number v = Js.Num (Z.of_nat i + 1)) ->
  Forall2 (fun v chunk =>
             (jobs ∘ snd) <$> getAllJobs userId (with_page v q) db = Value chunk)
          pages (chunks (Z.to_nat l) (length pages) sorted)
  /\ concat (chunks (Z.to_nat l) (length pages) sorted) = sorted
  /\ in_order (Query.sort q) sorted
  /\ forall sorted', sorted' ≡ₚ sorted -> in_order (Query.sort q) sorted' ->
       sorted' = sorted.
Proof.
  intros Hl Hl1 Hlist Hkeys Hsafe Hn Hpages.
  pose proof (ceil_div_spec (Z.of_nat (length sorted)) l ltac:(lia)) as [Hlow Hhigh].
  set (n := Js.ceil_div (Z.of_nat (length sorted)) l) in *.
  assert (0 <= n) as Hn0 by nia.
  pose proof (listing_in_order _ _ _ _ Hlist) as Hord.
  split; [|split; [|split; [exact Hord|]]].
  - apply Forall2_same_length_lookup_2.
    { unfold chunks. by rewrite length_map, length_seq. }
    intros i v chunk Hv Hc.
    unfold chunks in Hc. rewrite list_lookup_fmap in Hc.
    destruct (seq 0 (length pages) !! i) as [i'|] eqn:Hi; [|done].
    apply lookup_seq in Hi as [-> Hi]. simpl in Hc. injection Hc as <-.
    assert (Z.of_nat i < n) as Hin by lia.
    assert (page_of (with_page v q) = Js.Num (Z.of_nat i + 1)) as Hp.
    { unfold page_of, with_page. simpl. rewrite (Hpages i v Hv).
      destruct (Z.of_nat i + 1) eqn:E; try done; lia. }
    rewrite (getAllJobs_window userId (with_page v q) db (Z.of_nat i + 1) l);
      [|done|done|lia|lia|nia].
    rewrite listing_with_page, Hlist.
    destruct (listing_scan _ _ _ _ Hlist) as (found & Hs & _).
    change (queryObject userId (with_page v q)) with (queryObject userId q).
    rewrite Hs. simpl. do 2 f_equal.
    replace (Z.of_nat i + 1 - 1) with (Z.of_nat i) by lia.
    rewrite Z2Nat.inj_mul, Nat2Z.id by lia. done.
  - rewrite concat_chunks. apply take_ge. rewrite Hn. nia.
  - intros sorted' Hp Ho. by apply (in_order_unique (Query.sort q)).
Qed.

Lemma getAllJobs_pages_tile_twelve :
  listing alice latest_by_five twelve_jobs = Value (reverse twelve_jobs)
  /\ distinct_sort_keys (Query.sort latest_by_five) (reverse twelve_jobs)
  /\ Forall2 (fun p chunk =>
               (jobs ∘ snd) <$> getAllJobs alice (with_page p latest_by_five) twelve_jobs
               = Value chunk)
       [Some "1"; Some "2"; Some "3"] (chunks 5 3 (reverse twelve_jobs))
  /\ concat (chunks 5 3 (reverse twelve_jobs)) = reverse twelve_jobs.
Proof.
  assert (listing alice latest_by_five twelve_jobs = Value (reverse twelve_jobs))
    as Hl by (vm_compute; reflexivity).
  assert (distinct_sort_keys (Query.sort latest_by_five) (reverse twelve_jobs)) as Hk.
  { vm_compute. repeat (constructor; [rewrite ?elem_of_cons, ?elem_of_nil; intuition lia|]).
    constructor. }
  split; [exact Hl|]. split; [exact Hk|].
  destruct (getAllJobs_pages_tile alice latest_by_five twelve_jobs 5 (reverse twelve_jobs)
              [Some "1"; Some "2"; Some "3"]) as (Hpages & Hcat & _);
    [vm_compute; reflexivity|lia|exact Hl|exact Hk|by vm_compute|by vm_compute| |].
  - intros [|[|[|i]]] v Hv; simpl in Hv; try done; injection Hv as <-;
      vm_compute; reflexivity.
  - split; [exact Hpages|exact Hcat].
Defined.

(** ** Statistics *)

Lemma relabel_count now g : count (relabel now g) = snd g.
Proof. by destruct g as [[y m] c]. Qed.

Lemma monthly_pipeline_months owner db g :
  g ∈ monthly_pipeline owner db -> 1 <= snd (fst g) <= 12.
Proof.
  intros Hin. destruct (monthly_pipeline_spec owner db) as (_ & _ & Hg & _).
  apply Hg. by rewrite elem_of_reverse.
Qed.

(** X11. The statistics do not depend on the day they are asked for: the
    answer of showStats is the same for any two dates of the calendar that
    [moment()] may return. *)
Theorem showStats_any_day
    (userId : string) (now1 now2 : Moment.t) (db : Job.collection) :
  Moment.valid now1 -> Moment.valid now2 ->
  showStats userId now1 db = showStats userId now2 db.
Proof.
  intros H1 H2. unfold showStats. unfoldM.
  destruct (Job.ObjectId_of userId) as [owner| |]; try done.
  do 4 f_equal. apply list_fmap_ext.
  intros i [[y m] c] Hi. apply list_elem_of_lookup_2 in Hi.
  apply monthly_pipeline_months in Hi. simpl in Hi.
  by rewrite !relabel_label.
Qed.

Lemma showStats_any_day_leap :
  showStats alice (Moment.mk 2024 1 29) shared_db
  = showStats alice (Moment.mk 2023 11 31) shared_db.
Proof.
  apply showStats_any_day; by vm_compute.
Defined.

Lemma length_match_createdBy owner db :
  length (Pipeline.match_createdBy owner db) = count_owned owner db.
Proof.
  unfold Pipeline.match_createdBy, count_owned.
  induction db as [|j db IH]; [done|]. simpl.
  rewrite (String.eqb_sym (Job.createdBy j) owner).
  destruct (String.eqb owner (Job.createdBy j)); simpl; by rewrite IH.
Qed.

Lemma count_status_all owner db :
  (forall j, j ∈ db -> Job.createdBy j = owner ->
     Job.status j = "pending" \/ Job.status j = "interview" \/ Job.status j = "declined") ->
  (count_status owner "pending" db + count_status owner "interview" db
   + count_status owner "declined" db = count_owned owner db)%nat.
Proof.
  unfold count_status, count_owned.
  induction db as [|j db IH]; intros Hall; [done|]. simpl.
  assert (forall d, d ∈ db -> Job.createdBy d = owner ->
            Job.status d = "pending" \/ Job.status d = "interview"
            \/ Job.status d = "declined") as Hrest
    by (intros d Hd; apply Hall; by right).
  specialize (IH Hrest).
  destruct (String.eqb_spec (Job.createdBy j) owner) as [Ho|Ho]; simpl; [|done].
  destruct (Hall j ltac:(left) Ho) as [E|[E|E]]; rewrite E; simpl; lia.
Qed.

Lemma sum_bump {K} `{EqDecision K} (k : K) (gs : list (K * nat)) :
  sum_list_with snd (Pipeline.bump k gs) = S (sum_list_with snd gs).
Proof.
  induction gs as [|[k0 n] gs IH]; simpl; [done|].
  destruct (decide (k = k0)); simpl; [done|]. rewrite IH. lia.
Qed.

Lemma sum_group_count {K} `{EqDecision K} (key : Job.t -> K) docs :
  sum_list_with snd (Pipeline.group_count key docs) = length docs.
Proof.
  unfold Pipeline.group_count.
  assert (forall acc,
            sum_list_with snd (foldl (fun gs d => Pipeline.bump (key d) gs) acc docs)
            = (sum_list_with snd acc + length docs)%nat) as Hacc.
  { induction docs as [|d docs IH]; intros acc; simpl; [lia|].
    rewrite IH, sum_bump. lia. }
  by rewrite Hacc.
Qed.

Lemma sum_take {A} (f : A -> nat) n (l : list A) :
  (sum_list_with f (take n l) <= sum_list_with f l)%nat.
Proof.
  rewrite <- (take_drop n l) at 2. rewrite sum_list_with_app. lia.
Qed.

(** X12. The statistics add up.  When every document of the caller has one
    of the three recognised statuses, pending + interview + declined is the
    number of the caller's documents.  The counts of monthlyApplications
    never add up to more than that number, and add up to exactly that
    number when fewer than six months are listed. *)
Theorem showStats_totals
    (userId : string) (now : Moment.t) (db : Job.collection)
    (owner : ObjectId) (c : StatusCode) (s : Stats) :
  Job.castObjectId userId = Value owner ->
  showStats userId now db = Value (c, s) ->
  ((forall j, j ∈ db -> Job.createdBy j = owner ->
      Job.status j = "pending" \/ Job.status j = "interview"
      \/ Job.status j = "declined") ->
   (pending (defaultStats s) + interview (defaultStats s) + declined (defaultStats s)
    = count_owned owner db)%nat)
  /\ (sum_list_with count (monthlyApplications s) <= count_owned owner db)%nat
  /\ ((length (monthlyApplications s) < 6)%nat ->
      sum_list_with count (monthlyApplications s) = count_owned owner db).
Proof.
  intros Ho Hs. unfold showStats, Job.ObjectId_of in Hs. rewrite Ho in Hs.
  simpl in Hs. injection Hs as <- <-. simpl.
  destruct (group_count_spec Job.status (Pipeline.match_createdBy owner db))
    as [[Hnd _] Hc].
  rewrite !stats_object_count, !Hc, !tally_status by done.
  split; [apply count_status_all|].
  set (sorted := Pipeline.sort_year_month_desc
                   (Pipeline.group_count year_month (Pipeline.match_createdBy owner db))).
  assert (sum_list_with snd sorted = count_owned owner db) as Hsum.
  { unfold sorted, Pipeline.sort_year_month_desc.
    rewrite merge_sort_Permutation, sum_group_count. apply length_match_createdBy. }
  assert (forall l : list (Z * Z * nat),
            sum_list_with count (reverse (map (relabel now) l)) = sum_list_with snd l)
    as Hrel.
  { intros l. rewrite sum_list_with_reverse.
    induction l as [|g l IH]; [done|]. simpl. by rewrite relabel_count, IH. }
  unfold monthly_pipeline. fold sorted. rewrite Hrel, <- Hsum. split.
  - apply sum_take.
  - rewrite length_reverse, length_map, length_take. intros Hlen.
    rewrite take_ge; [done|lia].
Qed.

Lemma showStats_totals_alice :
  showStats alice (Moment.mk 2024 0 31) shared_db = Value (OK, alice_stats)
  /\ (pending (defaultStats alice_stats) + interview (defaultStats alice_stats)
      + declined (defaultStats alice_stats) = count_owned alice shared_db)%nat
  /\ sum_list_with count (monthlyApplications alice_stats)
     = count_owned alice shared_db.
Proof.
  assert (showStats alice (Moment.mk 2024 0 31) shared_db = Value (OK, alice_stats))
    as Hs by (vm_compute; reflexivity).
  split; [exact Hs|].
  destruct (showStats_totals alice (Moment.mk 2024 0 31) shared_db alice OK alice_stats)
    as (Hstatus & _ & Hmonths); [vm_compute; reflexivity|exact Hs|].
  split.
  - apply Hstatus. intros j Hin _.
    unfold shared_db in Hin.
    rewrite !elem_of_cons, elem_of_nil in Hin.
    destruct Hin as [->|[->|[->|[->|[]]]]]; cbn; auto.
  - apply Hmonths. vm_compute. lia.
Defined.

(** ** The authentication middleware *)

Lemma prefix_append p t : String.prefix p (p +:+ t) = true.
Proof.
  induction p as [|c p IH]; simpl; [by destruct t|].
  by destruct (ascii_dec c c).
Qed.

Lemma prefix_split p s : String.prefix p s = true -> exists t, s = p +:+ t.
Proof.
  revert s. induction p as [|c p IH]; intros s H.
  - by exists s.
  - destruct s as [|d s]; simpl in H; [done|].
    destruct (ascii_dec c d) as [->|]; [|done].
    destruct (IH _ H) as [t ->]. by exists t.
Qed.

Lemma append_empty s : s +:+ EmptyString = s.
Proof.
  induction s as [|c s IH]; [done|].
  change (String c (s +:+ EmptyString) = String c s). by rewrite IH.
Qed.

(** Every string is a run without a space followed by nothing or by a space
    and the rest. *)
Lemma first_word s :
  exists token rest, s = token +:+ rest /\ no_space token = true
                     /\ (rest = EmptyString \/ exists r, rest = String " " r).
Proof.
  induction s as [|c s (token & rest & -> & Hn & Hr)].
  - exists EmptyString, EmptyString. by eauto.
  - destruct (Ascii.eqb c " ") eqn:E.
    + apply Ascii.eqb_eq in E as ->.
      exists EmptyString, (String " " (token +:+ rest)). by eauto.
    + exists (String c token), rest. split; [done|]. split; [|done].
      unfold no_space. simpl. by rewrite E.
Qed.

Lemma split_first_word token rest :
  no_space token = true ->
  (rest = EmptyString \/ exists r, rest = String " " r) ->
  exists others, split " " (token +:+ rest) = token :: others.
Proof.
  intros Hn Hr. induction token as [|c token IH].
  - destruct Hr as [->|[r ->]]; simpl; by eauto.
  - unfold no_space in Hn. simpl in Hn. apply andb_true_iff in Hn as [Hc Hn].
    destruct (IH Hn) as [others E]. exists others.
    simpl. apply negb_true_iff in Hc. rewrite Hc. simpl in E. by rewrite E.
Qed.

Lemma first_word_unique t1 r1 t2 r2 :
  no_space t1 = true -> (r1 = EmptyString \/ exists r, r1 = String " " r) ->
  no_space t2 = true -> (r2 = EmptyString \/ exists r, r2 = String " " r) ->
  t1 +:+ r1 = t2 +:+ r2 -> t1 = t2.
Proof.
  intros H1 Hr1 H2 Hr2 E.
  destruct (split_first_word t1 r1 H1 Hr1) as [o1 E1].
  destruct (split_first_word t2 r2 H2 Hr2) as [o2 E2].
  rewrite E in E1. congruence.
Qed.

(** The token read from a header that starts with [Bearer ]. *)
Lemma auth_token verify token rest :
  no_space token = true ->
  (rest = EmptyString \/ exists r, rest = String " " r) ->
  auth verify (Some ("Bearer " +:+ token +:+ rest)) =
    match verify token with
    | Some payload =>
        Next (User.mk (Payload.userId payload)
                (Js.strict_eq (Payload.userId payload) demo_user))
    | None => UnauthenticatedError "Authentication invalid"
    end.
Proof.
  intros Hn Hr. unfold auth.
  destruct (split_first_word token rest Hn Hr) as [others E].
  replace (Js.truthy (Some ("Bearer " +:+ token +:+ rest))) with true by done.
  unfold startsWith. cbn [default from_option id negb orb]. rewrite prefix_append. cbn [negb].
  replace (split " " ("Bearer " +:+ token +:+ rest))
    with ("Bearer" :: split " " (token +:+ rest)).
  2:{ reflexivity. }
  rewrite E. done.
Qed.

Lemma auth_no_bearer verify header :
  (forall t, header <> Some ("Bearer " +:+ t)) ->
  auth verify header = UnauthenticatedError "Authentication invalid".
Proof.
  intros H. unfold auth. destruct header as [h|]; [|done].
  destruct (startsWith h "Bearer ") eqn:E.
  - apply prefix_split in E as [t ->]. by destruct (H t).
  - cbn [default from_option id]. rewrite E. by rewrite orb_true_r.
Qed.

(** X13 (auth): the middleware lets a request through exactly when the
    Authorization header is [Bearer ], then a token without a space that
    [jwt.verify] accepts, then nothing or a space and any text; [req.user]
    then holds the payload's userId, and the testUser flag is set exactly
    for the demo user's identifier.  In every other case it throws
    UnauthenticatedError('Authentication invalid'). *)
Theorem auth_outcomes (verify : string -> option Payload.t)
    (authorization : option string) :
  (forall user,
     auth verify authorization = Next user <->
     exists token rest payload,
       authorization = Some ("Bearer " +:+ token +:+ rest)
       /\ no_space token = true
       /\ (rest = EmptyString \/ exists r, rest = String " " r)
       /\ verify token = Some payload
       /\ User.userId user = Payload.userId payload
       /\ (User.testUser user = true <-> Payload.userId payload = Some demo_user))
  /\ ((forall user, auth verify authorization <> Next user) ->
      auth verify authorization = UnauthenticatedError "Authentication invalid").
Proof.
  assert (Hflag : forall v, Js.strict_eq v demo_user = true <-> v = Some demo_user).
  { intros [s|]; simpl; [|done]. rewrite String.eqb_eq. split; congruence. }
  split.
  - intros user. split.
    + intros H. destruct authorization as [h|]; [|done].
      destruct (startsWith h "Bearer ") eqn:E.
      2:{ unfold auth in H. cbn [default from_option id] in H. rewrite E in H.
          by rewrite orb_true_r in H. }
      apply prefix_split in E as [t ->].
      destruct (first_word t) as (token & rest & -> & Hn & Hr).
      rewrite (auth_token verify token rest Hn Hr) in H.
      destruct (verify token) as [payload|] eqn:Ev; [|done].
      injection H as <-. exists token, rest, payload.
      repeat split; try done; by apply Hflag.
    + intros (token & rest & payload & -> & Hn & Hr & Ev & Hu & Ht).
      rewrite (auth_token verify token rest Hn Hr), Ev. f_equal.
      destruct user as [u t]. simpl in *. subst u. f_equal.
      rewrite <- Hflag in Ht.
      destruct t, (Js.strict_eq (Payload.userId payload) demo_user); try done.
      * by apply Ht.
      * symmetry. by apply Ht.
  - intros H. unfold auth in *.
    destruct (negb (Js.truthy authorization)
              || negb (startsWith (default "" authorization) "Bearer ")); [done|].
    destruct (nth_error (split " " (default "" authorization)) 1 ≫= verify)
      as [payload|]; [|done].
    by edestruct H.
Qed.

(** X14 (auth): whatever follows a second space in the Authorization header
    is ignored: the header [Bearer <token> <anything>] is treated as
    [Bearer <token>]. *)
Theorem auth_ignores_trailing_text (verify : string -> option Payload.t)
    (token text : string) :
  no_space token = true ->
  auth verify (Some ("Bearer " +:+ token +:+ String " " text))
  = auth verify (Some ("Bearer " +:+ token)).
Proof.
  intros Hn.
  rewrite (auth_token verify token (String " " text)) by eauto.
  rewrite <- (append_empty token) at 2.
  by rewrite (auth_token verify token EmptyString) by eauto.
Qed.

Lemma auth_ignores_trailing_text_abc :
  no_space "abc" = true
  /\ forall verify,
       auth verify (Some "Bearer abc and more") = auth verify (Some "Bearer abc").
Proof.
  split; [reflexivity|].
  intros verify. apply (auth_ignores_trailing_text verify "abc" "and more").
  reflexivity.
Defined.

(** ** The router *)

Lemma committed_answer {A} (db : Job.collection) (r : M (A * Job.collection)) :
  (exists a db', committed db r = (Value a, db'))
  \/ (exists e, committed db r = (Raise e, db))
  \/ committed db r = (OutOfModel, db).
Proof. destruct r as [[a db']| |]; simpl; by eauto. Qed.

(** The controllers behind GET leave the collection as it is. *)
Lemma run_reads env c param req db :
  c = Route.GetAllJobs \/ c = Route.ShowStats \/ c = Route.GetJob ->
  snd (run env c param req db) = db.
Proof. by intros [->|[->| ->]]. Qed.

Lemma dispatch_GET path s param :
  Route.dispatch Route.GET path = Some (s, param) ->
  fst s = false
  /\ (snd s = Route.GetAllJobs \/ snd s = Route.ShowStats \/ snd s = Route.GetJob).
Proof.
  unfold Route.dispatch. destruct path as [|x [|y path]]; simpl.
  - intros [= <- <-]. by eauto.
  - destruct (String.eqb (lower x) (lower "stats")); intros [= <- <-]; by eauto.
  - done.
Qed.

Lemma dispatch_write v path s param :
  v <> Route.GET ->
  Route.dispatch v path = Some (s, param) ->
  fst s = true.
Proof.
  intros Hv. unfold Route.dispatch.
  destruct path as [|x [|y path]], v; simpl; try done;
    try (by intros [= <- <-]);
    destruct (String.eqb (lower x) (lower "stats")); simpl; try done;
    by intros [= <- <-].
Qed.

(** X15 (router, lines 13-19): a GET request never changes the collection,
    and its answer does not depend on the testUser middleware, which guards
    none of the GET routes. *)
Theorem serve_GET_reads_only (env : Env.t) (req : Request.t)
    (db : Job.collection) (out : M (StatusCode * Reply) * Job.collection) :
  Request.verb req = Route.GET ->
  serve env req db = Some out ->
  snd out = db
  /\ forall guard,
       serve (Env.mk guard (Env.defaultJobLocation env) (Env.fresh env)
                (Env.now env) (Env.today env)) req db = Some out.
Proof.
  intros Hv. unfold serve. rewrite Hv.
  destruct (Route.dispatch Route.GET (Request.path req))
    as [[[guarded c] param]|] eqn:E; [|done].
  destruct (dispatch_GET _ _ _ E) as [Hg Hc]. simpl in Hg, Hc. subst guarded.
  intros [= <-]. split; [by apply run_reads|].
  intros guard. simpl. by destruct Hc as [->|[->| ->]].
Qed.

Lemma serve_GET_reads_only_list :
  Request.verb list_request = Route.GET
  /\ exists out,
       serve refusing_env list_request three_jobs = Some out
       /\ snd out = three_jobs
       /\ forall guard,
            serve (Env.mk guard (Env.defaultJobLocation refusing_env)
                     (Env.fresh refusing_env) (Env.now refusing_env)
                     (Env.today refusing_env)) list_request three_jobs = Some out.
Proof.
  split; [reflexivity|].
  eexists. split; [reflexivity|].
  apply (serve_GET_reads_only refusing_env list_request three_jobs); reflexivity.
Defined.

(** X16 (router, lines 13-19): every route that writes (POST, PATCH,
    DELETE) runs testUser first: when testUser throws, the request is
    answered with that error, the controller does not run and the
    collection is left as it was. *)
Theorem serve_write_guarded (env : Env.t) (req : Request.t)
    (db : Job.collection) (e : Error)
    (out : M (StatusCode * Reply) * Job.collection) :
  Env.testUser env = Raise e ->
  Request.verb req <> Route.GET ->
  serve env req db = Some out ->
  out = (Raise e, db).
Proof.
  intros He Hv. unfold serve.
  destruct (Route.dispatch (Request.verb req) (Request.path req))
    as [[[guarded c] param]|] eqn:E; [|done].
  apply (dispatch_write _ _ _ _ Hv) in E. simpl in E. subst guarded.
  rewrite He. by intros [= <-].
Qed.

Lemma serve_write_guarded_delete :
  Env.testUser refusing_env = Raise (BadRequestError "read only")
  /\ Request.verb delete_request <> Route.GET
  /\ exists out,
       serve refusing_env delete_request three_jobs = Some out
       /\ out = (Raise (BadRequestError "read only"), three_jobs).
Proof.
  split; [reflexivity|]. split; [discriminate|].
  eexists. split; [reflexivity|].
  apply (serve_write_guarded refusing_env delete_request three_jobs);
    [reflexivity|discriminate|reflexivity].
Defined.

(** X17 (router, lines 13-19): the route [/stats] is registered before
    [/:id], which matches the same path: a GET whose single path segment is
    [stats], in any letter case, is answered by showStats and not by
    getJob. *)
Theorem serve_stats_before_id (env : Env.t) (req : Request.t)
    (db : Job.collection) (s : string) :
  Request.verb req = Route.GET ->
  Request.path req = [s] ->
  lower s = "stats" ->
  Route.bind (Route.Param "id") (Request.path req) = Some (Some s)
  /\ serve env req db
     = Some (reply Summary (showStats (Request.userId req) (Env.today env) db), db).
Proof.
  intros Hv Hp Hs. rewrite Hp. split; [done|].
  unfold serve, Route.dispatch. rewrite Hv, Hp. simpl.
  change (lower "stats") with "stats". by rewrite Hs, String.eqb_refl.
Qed.

Lemma serve_stats_before_id_capital :
  serve refusing_env stats_request shared_db
  = Some (reply Summary (showStats alice (Moment.mk 2024 1 15) shared_db), shared_db)
  /\ fst <$> serve refusing_env stats_request shared_db
     = Some (Value (OK, Summary alice_stats)).
Proof.
  destruct (serve_stats_before_id refusing_env stats_request shared_db "Stats")
    as [_ H]; [reflexivity|reflexivity|reflexivity|].
  split; [exact H|]. rewrite H. by vm_compute.
Defined.
